(** * waigo/test-utils: fixture builders and the coroutine bridge

    A shallow embedding of the test harness of [waigo/test-utils].  The
    repository holds three generations of the harness:

    - [IndexSync]:  [exports.create] of [src/index.js] (synchronous, shelljs);
    - [IndexAsync]: [module.exports = function(_module, _dataFolder)] of
      [src/index.js] (promise returning: mkdirp, rimraf, bluebird);
    - [Tools]:      [getTools] of [src/unnamed/part_000] (synchronous, with a
      public asset root, extension handling, [awaitAsync] and [mustThrow]).

    The harness is written against Node's [path] and [fs] modules, shelljs,
    lodash, co and must.  Those libraries are modelled first ([Str], [Path],
    [Fs], [Js], [Co], [Must]); the harness functions are then transliterated
    on top of them, one definition per source function, under the same
    names.  All definitions come first, the lemmas and theorems follow. *)

From Stdlib Require Import String Ascii NArith ZArith Lia.
From stdpp Require Import base gmap strings list fin_maps pretty.

Open Scope string_scope.
Open Scope list_scope.
Open Scope nat_scope.

(* ===================================================================== *)
(** * JavaScript strings                                                  *)
(* ===================================================================== *)

Module Str.

Definition is_slash (c : ascii) : bool := Ascii.eqb c "/"%char.

(** the double quote character, as a one-character string *)
Definition dq : string := String "034"%char EmptyString.

(** [s.split('/')] *)
Fixpoint split_slash (s : string) : list string :=
  match s with
  | EmptyString => [EmptyString]
  | String c s' =>
      if is_slash c then EmptyString :: split_slash s'
      else match split_slash s' with
           | h :: t => String c h :: t
           | [] => [String c EmptyString]
           end
  end.

(** [segs.join('/')] *)
Definition join_slash (segs : list string) : string := String.concat "/" segs.

(** [s.endsWith(suffix)] *)
Fixpoint ends_with (s suffix : string) : bool :=
  String.eqb s suffix
  || match s with
     | EmptyString => false
     | String _ s' => ends_with s' suffix
     end.

(** [s.charAt(0) === '/'] *)
Definition starts_with_slash (s : string) : bool :=
  match s with
  | String c _ => is_slash c
  | EmptyString => false
  end.

(** [s.charAt(s.length - 1) === '/'] *)
Fixpoint ends_with_slash (s : string) : bool :=
  match s with
  | EmptyString => false
  | String c EmptyString => is_slash c
  | String _ s' => ends_with_slash s'
  end.

(** the string without its trailing slashes *)
Fixpoint strip_trailing_slashes (s : string) : string :=
  match s with
  | EmptyString => EmptyString
  | String c s' =>
      match strip_trailing_slashes s' with
      | EmptyString => if is_slash c then EmptyString else String c EmptyString
      | t => String c t
      end
  end.

(** split at the last occurrence of [c]: the text before it and after it *)
Fixpoint rsplit (c : ascii) (s : string) : option (string * string) :=
  match s with
  | EmptyString => None
  | String x s' =>
      match rsplit c s' with
      | Some (a, b) => Some (String x a, b)
      | None => if Ascii.eqb x c then Some (EmptyString, s') else None
      end
  end.

(** [s.indexOf(c) !== -1] *)
Fixpoint contains (c : ascii) (s : string) : bool :=
  match s with
  | EmptyString => false
  | String x s' => Ascii.eqb x c || contains c s'
  end.

Definition is_digit (c : ascii) : bool :=
  (48 <=? nat_of_ascii c)%nat && (nat_of_ascii c <=? 57)%nat.

Definition all_digits (s : string) : bool :=
  forallb is_digit (list_ascii_of_string s).

Definition digits_value (s : string) : N :=
  fold_left (λ acc c, (10 * acc + (N_of_ascii c - 48))%N) (list_ascii_of_string s) 0%N.

End Str.

(* ===================================================================== *)
(** * Node's [path] module (POSIX flavour)                                *)
(* ===================================================================== *)

Module Path.
Import Str.

(** One step of [normalizeString]: [acc] is the stack of segments kept so
    far, innermost first. *)
Definition norm_step (allowAboveRoot : bool) (acc : list string) (seg : string)
  : list string :=
  if String.eqb seg "" || String.eqb seg "." then acc
  else if String.eqb seg ".." then
    match acc with
    | top :: rest =>
        if String.eqb top ".." then (if allowAboveRoot then ".." :: acc else acc)
        else rest
    | [] => if allowAboveRoot then [".."] else []
    end
  else seg :: acc.

(** The segments [normalizeString(path, allowAboveRoot)] keeps, outermost first. *)
Definition norm_segs (allowAboveRoot : bool) (segs : list string) : list string :=
  rev (fold_left (norm_step allowAboveRoot) segs []).

Definition isAbsolute (p : string) : bool := starts_with_slash p.

(** [path.normalize(p)] *)
Definition normalize (p : string) : string :=
  if String.eqb p "" then "."
  else
    let isAbs := isAbsolute p in
    let trailingSeparator := ends_with_slash p in
    let body := join_slash (norm_segs (negb isAbs) (split_slash p)) in
    if String.eqb body "" then
      (if isAbs then "/" else if trailingSeparator then "./" else ".")
    else
      let body := if trailingSeparator then body +:+ "/" else body in
      if isAbs then "/" +:+ body else body.

(** [path.join(...args)]: the non-empty arguments joined by [/], normalized. *)
Definition join (args : list string) : string :=
  match filter (λ a, a ≠ "") args with
  | [] => "."
  | parts => normalize (join_slash parts)
  end.

(** [path.dirname(p)] *)
Definition dirname (p : string) : string :=
  match p with
  | EmptyString => "."
  | String c0 rest =>
      match rsplit "/"%char (strip_trailing_slashes rest) with
      | None => if is_slash c0 then "/" else "."
      | Some (a, _) =>
          if is_slash c0 && String.eqb a "" then "//" else String c0 a
      end
  end.

(** the last segment of [p], trailing slashes ignored *)
Definition last_part (p : string) : string :=
  let q := strip_trailing_slashes p in
  match rsplit "/"%char q with
  | Some (_, b) => b
  | None => q
  end.

(** [path.extname(p)]: from the last [.] of the last segment to its end;
    empty when there is no dot, when the only dot is the first character of
    the segment, and for the segment [..]. *)
Definition extname (p : string) : string :=
  match rsplit "."%char (last_part p) with
  | None => ""
  | Some (before, after) =>
      if String.eqb before "" then ""
      else if String.eqb before "." && String.eqb after "" then ""
      else "." +:+ after
  end.

(** [path.resolve(cwd, p)] as the list of names from the root: the entry the
    operating system opens for [p] when the process runs in [cwd]. *)
Definition resolve (cwd p : string) : list string :=
  norm_segs false (split_slash (if isAbsolute p then p else cwd +:+ "/" +:+ p)).

(** An ordinary file or folder name: not empty, not [.] or [..], no slash. *)
Definition ordinary_name (n : string) : bool :=
  negb (String.eqb n "") && negb (String.eqb n ".") && negb (String.eqb n "..")
  && negb (contains "/"%char n).

(** A plain relative name such as [a/x] or [foo.css]: ordinary names
    separated by single slashes. *)
Definition plain (m : string) : bool := forallb ordinary_name (split_slash m).

(** The names, below the folder it is joined to, of the plain name [m] with
    [ext] appended to it. *)
Definition below (m ext : string) : list string :=
  removelast (split_slash m) ++ [List.last (split_slash m) "" +:+ ext].

End Path.

(* ===================================================================== *)
(** * Values, completions, the process and its file system               *)
(* ===================================================================== *)

(** The JavaScript values the harness passes around.  [VError name message]
    is an instance of [Error] built by the constructor [name]. *)
Inductive jsval :=
| VUndefined
| VNumber (n : Z)
| VString (s : string)
| VError (name message : string).

(** [String(v)] *)
Definition display (v : jsval) : string :=
  match v with
  | VUndefined => "undefined"
  | VNumber n => pretty n
  | VString s => s
  | VError name message => name +:+ ": " +:+ message
  end.

(** How a call ends: it returns, or it throws. *)
Inductive completion (A : Type) :=
| Normal (a : A)
| Throw (e : jsval).
Arguments Normal {A} a.
Arguments Throw {A} e.

(** The eventual state of a promise. *)
Inductive promise (A : Type) :=
| Pending
| Fulfilled (a : A)
| Rejected (e : jsval).
Arguments Pending {A}.
Arguments Fulfilled {A} a.
Arguments Rejected {A} e.

Inductive node :=
| Dir
| File (contents : string).

(** The file-system requests a harness function issues, as written in the
    source (the path argument is the string passed, not yet resolved). *)
Inductive fs_call :=
| MkdirP (path : string)
| RmRf (path : string)
| WriteFile (path contents : string)
| ReadFile (path : string)
| Readdir (path : string).

(** The process: its working directory, the file tree (keyed by the names
    from the root) and the log of file-system requests issued so far. *)
Record world := World {
  cwd : string;
  files : gmap (list string) node;
  calls : list fs_call
}.

(** A synchronous JavaScript computation. *)
Definition js (A : Type) : Type := world → completion A * world.

Definition ret {A} (a : A) : js A := λ w, (Normal a, w).

Definition throw {A} (e : jsval) : js A := λ w, (Throw e, w).

Definition bind {A B} (m : js A) (k : A → js B) : js B :=
  λ w, match m w with
       | (Normal a, w') => k a w'
       | (Throw e, w') => (Throw e, w')
       end.

#[global] Instance js_ret : MRet js := @ret.
#[global] Instance js_bind : MBind js := λ A B k m, bind m k.

(** [try { m } catch (err) { h(err) }] *)
Definition try_catch {A} (m : js A) (h : jsval → js A) : js A :=
  λ w, match m w with
       | (Normal a, w') => (Normal a, w')
       | (Throw e, w') => h e w'
       end.

(** [process.cwd()] *)
Definition process_cwd : js string := λ w, (Normal (cwd w), w).

Definition log (c : fs_call) (w : world) : world :=
  World (cwd w) (files w) (calls w ++ [c]).

Definition set_files (fs : gmap (list string) node) (w : world) : world :=
  World (cwd w) fs (calls w).

(* ===================================================================== *)
(** * Node's [fs], shelljs, mkdirp and rimraf                             *)
(* ===================================================================== *)

Module Fs.

Definition fs_error (code syscall path : string) : jsval :=
  VError "Error" (code +:+ ", " +:+ syscall +:+ " " +:+ path).

Definition is_file (fs : gmap (list string) node) (p : list string) : bool :=
  match fs !! p with
  | Some (File _) => true
  | _ => false
  end.

Definition is_dir (fs : gmap (list string) node) (p : list string) : bool :=
  match p with
  | [] => true
  | _ => match fs !! p with
         | Some Dir => true
         | _ => false
         end
  end.

(** the path itself and its ancestors below the root, outermost first *)
Fixpoint inits (p : list string) : list (list string) :=
  match p with
  | [] => []
  | x :: p' => [x] :: (cons x <$> inits p')
  end.

(** a regular file stands at the path or at one of its ancestors *)
Definition blocked (fs : gmap (list string) node) (p : list string) : bool :=
  existsb (is_file fs) (inits p).

(** [mkdir -p]: the directory and every missing ancestor are created; when
    a regular file is in the way nothing is created. *)
Definition mkdir_p (fs : gmap (list string) node) (p : list string)
  : gmap (list string) node :=
  if blocked fs p then fs
  else foldr (λ q m, <[q := Dir]> m) fs (inits p).

(** [rm -rf]: the entry and everything below it are removed. *)
Definition rm_rf (fs : gmap (list string) node) (p : list string)
  : gmap (list string) node :=
  filter (λ kv, ¬ p `prefix_of` kv.1) fs.

(** the name of [q] when it is an immediate child of [p] *)
Fixpoint child_name (p q : list string) : option string :=
  match p, q with
  | [], [n] => Some n
  | x :: p', y :: q' => if decide (x = y) then child_name p' q' else None
  | _, _ => None
  end.

Definition children (fs : gmap (list string) node) (p : list string) : list string :=
  omap (λ kv, child_name p kv.1) (map_to_list fs).


(** [shell.mkdir('-p', folder)]: shelljs reports a failure on its error
    stream and carries on, it does not throw. *)
Definition shell_mkdir_p (folder : string) : js unit :=
  λ w, let w := log (MkdirP folder) w in
       (Normal (), set_files (mkdir_p (files w) (Path.resolve (cwd w) folder)) w).

(** [shell.rm('-rf', folder)] *)
Definition shell_rm_rf (folder : string) : js unit :=
  λ w, let w := log (RmRf folder) w in
       (Normal (), set_files (rm_rf (files w) (Path.resolve (cwd w) folder)) w).

(** What [open(path, O_WRONLY|O_CREAT|O_TRUNC)] followed by the write does
    ([p] is the entry [path] resolves to; a path that ends with a slash
    names a directory and cannot be opened for writing). *)
Definition write_result (fs : gmap (list string) node) (p : list string)
    (path contents : string) : jsval + gmap (list string) node :=
  if Str.ends_with_slash path then inl (fs_error "EISDIR" "open" path)
  else if is_dir fs p then inl (fs_error "EISDIR" "open" path)
  else if is_dir fs (removelast p) then inr (<[p := File contents]> fs)
  else if blocked fs (removelast p) then inl (fs_error "ENOTDIR" "open" path)
  else inl (fs_error "ENOENT" "open" path).

(** [fs.writeFileSync(filePath, contents)] *)
Definition writeFileSync (filePath contents : string) : js unit :=
  λ w, let w := log (WriteFile filePath contents) w in
       match write_result (files w) (Path.resolve (cwd w) filePath) filePath contents with
       | inl e => (Throw e, w)
       | inr fs => (Normal (), set_files fs w)
       end.

Definition read_result (fs : gmap (list string) node) (p : list string)
    (path : string) : jsval + string :=
  match fs !! p with
  | Some (File c) =>
      if Str.ends_with_slash path then inl (fs_error "ENOTDIR" "open" path) else inr c
  | Some Dir => inl (fs_error "EISDIR" "read" path)
  | None => if bool_decide (p = []) then inl (fs_error "EISDIR" "read" path)
            else inl (fs_error "ENOENT" "open" path)
  end.

(** [fs.readFileSync(filePath, { encoding: 'utf8' })] *)
Definition readFileSync (filePath : string) : js string :=
  λ w, let w := log (ReadFile filePath) w in
       match read_result (files w) (Path.resolve (cwd w) filePath) filePath with
       | inl e => (Throw e, w)
       | inr c => (Normal c, w)
       end.

Definition readdir_result (fs : gmap (list string) node) (p : list string)
    (path : string) : jsval + list string :=
  if is_dir fs p then inr (children fs p)
  else if blocked fs p then inl (fs_error "ENOTDIR" "scandir" path)
  else inl (fs_error "ENOENT" "scandir" path).

(** [fs.readdirSync(folder)] *)
Definition readdirSync (folder : string) : js (list string) :=
  λ w, let w := log (Readdir folder) w in
       match readdir_result (files w) (Path.resolve (cwd w) folder) folder with
       | inl e => (Throw e, w)
       | inr names => (Normal names, w)
       end.

(** [mkdirpAsync(folder)]: as [mkdir -p], but a regular file in the way
    rejects the promise. *)
Definition mkdirpAsync (folder : string) : js (promise unit) :=
  λ w, let w := log (MkdirP folder) w in
       let p := Path.resolve (cwd w) folder in
       if blocked (files w) p then (Normal (Rejected (fs_error "EEXIST" "mkdir" folder)), w)
       else (Normal (Fulfilled ()), set_files (mkdir_p (files w) p) w).

(** [rimrafAsync(folder)] *)
Definition rimrafAsync (folder : string) : js (promise unit) :=
  λ w, let w := log (RmRf folder) w in
       (Normal (Fulfilled ()), set_files (rm_rf (files w) (Path.resolve (cwd w) folder)) w).

(** [fs.writeFileAsync(filePath, contents)] *)
Definition writeFileAsync (filePath contents : string) : js (promise unit) :=
  λ w, let w := log (WriteFile filePath contents) w in
       match write_result (files w) (Path.resolve (cwd w) filePath) filePath contents with
       | inl e => (Normal (Rejected e), w)
       | inr fs => (Normal (Fulfilled ()), set_files fs w)
       end.

(** [fs.readdirAsync(folder)] *)
Definition readdirAsync (folder : string) : js (promise (list string)) :=
  λ w, let w := log (Readdir folder) w in
       match readdir_result (files w) (Path.resolve (cwd w) folder) folder with
       | inl e => (Normal (Rejected e), w)
       | inr names => (Normal (Fulfilled names), w)
       end.

(** [fs.readFileAsync(filePath, { encoding: 'utf8' })] *)
Definition readFileAsync (filePath : string) : js (promise string) :=
  λ w, let w := log (ReadFile filePath) w in
       match read_result (files w) (Path.resolve (cwd w) filePath) filePath with
       | inl e => (Normal (Rejected e), w)
       | inr c => (Normal (Fulfilled c), w)
       end.

(** The error of a path that names nothing: a regular file on the way
    makes it [ENOTDIR], otherwise it is [ENOENT]. *)
Definition missing (fs : gmap (list string) node) (p : list string)
    (syscall path : string) : jsval :=
  if blocked fs p then fs_error "ENOTDIR" syscall path
  else fs_error "ENOENT" syscall path.

(** What [access(path, F_OK)] reports: nothing when [path] names an entry,
    else the error.  The empty path names nothing, and a path that ends
    with a slash names directories only.  Existence checks and the removal
    of single files are not entered in the request log, which keeps the
    requests for folders, file contents and listings. *)
Definition access_result (fs : gmap (list string) node) (p : list string)
    (path : string) : option jsval :=
  if String.eqb path "" then Some (fs_error "ENOENT" "access" path)
  else if bool_decide (p = []) then None
  else match fs !! p with
       | Some (File _) =>
           if Str.ends_with_slash path then Some (fs_error "ENOTDIR" "access" path)
           else None
       | Some Dir => None
       | None => Some (missing fs p "access" path)
       end.

(** [fs.accessSync(filePath, fs.F_OK)] *)
Definition accessSync (filePath : string) : js unit :=
  λ w, match access_result (files w) (Path.resolve (cwd w) filePath) filePath with
       | Some e => (Throw e, w)
       | None => (Normal (), w)
       end.

(** What [unlink(path)] does: a regular file is removed; a directory is
    refused ([EISDIR], as Linux reports it). *)
Definition unlink_result (fs : gmap (list string) node) (p : list string)
    (path : string) : jsval + gmap (list string) node :=
  if String.eqb path "" then inl (fs_error "ENOENT" "unlink" path)
  else if bool_decide (p = []) then inl (fs_error "EISDIR" "unlink" path)
  else match fs !! p with
       | Some (File _) =>
           if Str.ends_with_slash path then inl (fs_error "ENOTDIR" "unlink" path)
           else inr (delete p fs)
       | Some Dir => inl (fs_error "EISDIR" "unlink" path)
       | None => inl (missing fs p "unlink" path)
       end.

(** [fs.unlinkSync(filePath)] *)
Definition unlinkSync (filePath : string) : js unit :=
  λ w, match unlink_result (files w) (Path.resolve (cwd w) filePath) filePath with
       | inl e => (Throw e, w)
       | inr fs => (Normal (), set_files fs w)
       end.

(** [shell.rm('-f', file)]: a regular file is unlinked; a path that names
    nothing is passed over in silence ([-f]) and a directory is refused
    (no [-r]) with a message on the error stream.  Nothing is thrown. *)
Definition shell_rm_f (file : string) : js unit :=
  λ w, match unlink_result (files w) (Path.resolve (cwd w) file) file with
       | inl _ => (Normal (), w)
       | inr fs => (Normal (), set_files fs w)
       end.

(** [fs.existsAsync(file)]: the promisified [fs.exists], fulfilled with
    [true] when the entry can be reached and with [false] otherwise. *)
Definition existsAsync (file : string) : js (promise bool) :=
  λ w, match access_result (files w) (Path.resolve (cwd w) file) file with
       | Some _ => (Normal (Fulfilled false), w)
       | None => (Normal (Fulfilled true), w)
       end.

(** [fs.unlinkAsync(filePath)] *)
Definition unlinkAsync (filePath : string) : js (promise unit) :=
  λ w, match unlink_result (files w) (Path.resolve (cwd w) filePath) filePath with
       | inl e => (Normal (Rejected e), w)
       | inr fs => (Normal (Fulfilled ()), set_files fs w)
       end.

End Fs.

(* ===================================================================== *)
(** * Promises: [then], [Promise.resolve], [Promise.all]                  *)
(* ===================================================================== *)

Module Promise.

(** [Promise.resolve()] *)
Definition resolve : js (promise unit) := ret (Fulfilled ()).

(** [p.then(f)]: [f] runs once [p] is fulfilled, never before; what [f]
    throws rejects the result. *)
Definition then_ {A B} (p : js (promise A)) (f : A → js (promise B)) : js (promise B) :=
  λ w, match p w with
       | (Normal (Fulfilled a), w') =>
           match f a w' with
           | (Throw e, w'') => (Normal (Rejected e), w'')
           | r => r
           end
       | (Normal (Rejected e), w') => (Normal (Rejected e), w')
       | (Normal Pending, w') => (Normal Pending, w')
       | (Throw e, w') => (Throw e, w')
       end.

(** The state [Promise.all] reaches from the states of its members. *)
Fixpoint all_states {A} (ps : list (promise A)) : promise (list A) :=
  match ps with
  | [] => Fulfilled []
  | Rejected e :: _ => Rejected e
  | Pending :: ps' =>
      match all_states ps' with
      | Rejected e => Rejected e
      | _ => Pending
      end
  | Fulfilled a :: ps' =>
      match all_states ps' with
      | Fulfilled l => Fulfilled (a :: l)
      | Pending => Pending
      | Rejected e => Rejected e
      end
  end.

(** the members of an array literal of promises are started left to right *)
Fixpoint start_all {A} (ps : list (js (promise A))) : js (list (promise A)) :=
  match ps with
  | [] => ret []
  | p :: ps' => bind p (λ x, bind (start_all ps') (λ xs, ret (x :: xs)))
  end.

(** [Promise.all([...])] *)
Definition all {A} (ps : list (js (promise A))) : js (promise (list A)) :=
  bind (start_all ps) (λ xs, ret (all_states xs)).

End Promise.

(* ===================================================================== *)
(** * JavaScript objects and lodash                                       *)
(* ===================================================================== *)

Module Js.

(** A property name that is an array index: the canonical decimal numeral
    of an integer below [2^32 - 1]. *)
Definition array_index (k : string) : option N :=
  match k with
  | EmptyString => None
  | String c rest =>
      if Str.all_digits k
         && (negb (Ascii.eqb c "0"%char) || String.eqb rest "")
         && (Str.digits_value k <? 4294967295)%N
      then Some (Str.digits_value k)
      else None
  end.

(** [k] is enumerated before [k']: array indices come first, in ascending
    order; the other names keep the order in which they were created. *)
Definition enumerated_before (k k' : string) : bool :=
  match array_index k, array_index k' with
  | Some i, Some j => (i <? j)%N
  | Some _, None => true
  | None, _ => false
  end.

(** An object with string values: its own enumerable properties, in the
    order [for ... in], [Object.keys] and lodash's [_.each] visit them. *)
Definition object : Type := list (string * string).

(** [o[k]] *)
Fixpoint get (o : object) (k : string) : option string :=
  match o with
  | [] => None
  | (k', v) :: o' => if String.eqb k k' then Some v else get o' k
  end.

(** [o[k] = v] *)
Fixpoint set (o : object) (k v : string) : object :=
  match o with
  | [] => [(k, v)]
  | (k', v') :: o' =>
      if String.eqb k k' then (k, v) :: o'
      else if enumerated_before k k' then (k, v) :: (k', v') :: o'
      else (k', v') :: set o' k v
  end.


(** [_.zipObject(props, values)] *)
Definition zipObject (props values : list string) : object :=
  fold_left (λ o kv, set o kv.1 kv.2) (zip props values) [].

(** [_.each(o, f)]: calls [f(value, key)] for each property in turn. *)
Fixpoint each (o : object) (f : string → string → js unit) : js unit :=
  match o with
  | [] => ret ()
  | (k, v) :: o' => bind (f v k) (λ _, each o' f)
  end.

(** [_.each(array, f)] *)
Fixpoint each_array {A} (l : list A) (f : A → js unit) : js unit :=
  match l with
  | [] => ret ()
  | x :: l' => bind (f x) (λ _, each_array l' f)
  end.

(** The [modules] argument of the harness: left out, [null], an array of
    names or an object from names to contents. *)
Inductive modules_arg :=
| ModulesUndefined
| ModulesNull
| ModulesArray (names : list string)
| ModulesObject (o : object).

End Js.

(* ===================================================================== *)
(** * co: driving a generator to a promise                                *)
(* ===================================================================== *)

Module Co.

(** A generator (or the body of a generator function), seen from its next
    suspension point: it returns, throws, or yields and is resumed either
    with a value ([gen.next(v)]) or with an error ([gen.throw(e)]).  What it
    yields is a promise, another generator (function), or a value co cannot
    wait for. *)
Inductive generator :=
| GReturn (v : jsval)
| GThrow (e : jsval)
| GYieldPromise (p : promise jsval) (next : jsval → generator) (throw_ : jsval → generator)
| GYieldGenerator (g : generator) (next : jsval → generator) (throw_ : jsval → generator)
| GYieldValue (v : jsval) (next : jsval → generator) (throw_ : jsval → generator).

(** What a caller may hand to [yield]. *)
Inductive yieldable :=
| YPromise (p : promise jsval)
| YGenerator (g : generator)
| YValue (v : jsval).

(** [yield y], continued by [next] or [throw_] *)
Definition GYield (y : yieldable) (next throw_ : jsval → generator) : generator :=
  match y with
  | YPromise p => GYieldPromise p next throw_
  | YGenerator g => GYieldGenerator g next throw_
  | YValue v => GYieldValue v next throw_
  end.

(** the calls co makes to the [resolve] and [reject] of its promise *)
Inductive settle_call :=
| CallResolve (v : jsval)
| CallReject (e : jsval).

Definition not_yieldable (v : jsval) : jsval :=
  VError "TypeError"
    ("You may only yield a function, promise, generator, array, or object, "
     +:+ "but the following object was passed: " +:+ Str.dq +:+ display v +:+ Str.dq).

(** The state of [new Promise(executor)] after the executor's calls: the
    first call settles it, later calls are ignored. *)
Definition promise_of_calls (l : list settle_call) : promise jsval :=
  match l with
  | [] => Pending
  | CallResolve v :: _ => Fulfilled v
  | CallReject e :: _ => Rejected e
  end.

(** co's [onFulfilled] / [onRejected] / [next] loop: a yielded promise is
    awaited, a yielded generator is run by a nested [co], anything else is
    thrown back into the generator as a [TypeError]. *)
Fixpoint co_calls (g : generator) : list settle_call :=
  match g with
  | GReturn v => [CallResolve v]
  | GThrow e => [CallReject e]
  | GYieldPromise p next throw_ =>
      match p with
      | Fulfilled v => co_calls (next v)
      | Rejected e => co_calls (throw_ e)
      | Pending => []
      end
  | GYieldGenerator g' next throw_ =>
      match promise_of_calls (co_calls g') with
      | Fulfilled v => co_calls (next v)
      | Rejected e => co_calls (throw_ e)
      | Pending => []
      end
  | GYieldValue v next throw_ => co_calls (throw_ (not_yieldable v))
  end.

(** [co(gen)] *)
Definition co (g : generator) : promise jsval := promise_of_calls (co_calls g).

End Co.

(* ===================================================================== *)
(** * must: [promise.must.reject.with.error(message)]                     *)
(* ===================================================================== *)

Module Must.

(** [isError(actual, Error, expected)] for a string [expected]: an instance
    of [Error] whose message is exactly [expected]. *)
Definition is_error_with (actual : jsval) (expected : string) : bool :=
  match actual with
  | VError _ message => String.eqb message expected
  | _ => false
  end.

Definition assertion_error (message : string) : jsval :=
  VError "AssertionError" message.

(** [p.must.reject.with.error(expected)]: waits for [p]; a fulfilled [p]
    fails the assertion, a rejected one passes when the reason matches. *)
Definition reject_with_error (p : promise jsval) (expected : string) : promise jsval :=
  match p with
  | Pending => Pending
  | Fulfilled _ => Rejected (assertion_error "Resolved")
  | Rejected e =>
      if is_error_with e expected then Fulfilled VUndefined
      else Rejected (assertion_error
                       (display e +:+ " must be an error matching " +:+ expected))
  end.

End Must.

(* ===================================================================== *)
(** * Text shared by the three harnesses                                  *)
(* ===================================================================== *)

Module Text.

(** ['_TESTPLUGIN'] *)
Definition marker : string := "_TESTPLUGIN".

Definition suffix_error : jsval :=
  VError "Error" "Test plugin name has incorrect suffix".

Definition readme : string :=
  "The presence of this file ensures that node-findit works".

(** ['{ "name": "' + name + '", "version": "0.0.1" }'] *)
Definition package_json (name : string) : string :=
  "{ " +:+ Str.dq +:+ "name" +:+ Str.dq +:+ ": " +:+ Str.dq +:+ name +:+ Str.dq
  +:+ ", " +:+ Str.dq +:+ "version" +:+ Str.dq +:+ ": " +:+ Str.dq +:+ "0.0.1"
  +:+ Str.dq +:+ " }".

Definition index_js : string := "module.exports = {}".

(** ['module.exports="' + defaultContent + '";'] *)
Definition default_module (defaultContent : string) : string :=
  "module.exports=" +:+ Str.dq +:+ defaultContent +:+ Str.dq +:+ ";".

(** [x || d] for a string that may be left out *)
Definition or_else (x : option string) (d : string) : string :=
  match x with
  | Some s => if String.eqb s "" then d else s
  | None => d
  end.

(** What [modules] is once the array form has been expanded: nothing when
    the argument is falsy, else the object the loop runs over. *)
Definition expand (modules : Js.modules_arg) (defaultContent : string) : option Js.object :=
  match modules with
  | Js.ModulesUndefined => None
  | Js.ModulesNull => None
  | Js.ModulesArray names =>
      let moduleContent := map (λ moduleName, default_module defaultContent) names in
      Some (Js.zipObject names moduleContent)
  | Js.ModulesObject o => Some o
  end.

(** [modules[moduleName]], written to the file *)
Definition content_of (o : Js.object) (moduleName : string) : string :=
  default "undefined" (Js.get o moduleName).

End Text.

(* ===================================================================== *)
(** * [getTools] of src/unnamed/part_000                                  *)
(* ===================================================================== *)

Module Tools.
Import Text.

Record options := Options {
  dataFolder : option string;
  opt_appFolder : option string;
  opt_publicFolder : option string;
  opt_pluginsFolder : option string
}.

Record tools := MkTools {
  appFolder : string;
  publicFolder : string;
  pluginsFolder : string
}.

(** The folders of [getTools] (second listing: [src] is the application
    root and each folder can be overridden). *)
Definition getTools (o : options) : js tools :=
  cwd ← process_cwd;
  let testDataFolder :=
    Path.normalize (default (Path.join [cwd; "test"; "data"]) (dataFolder o)) in
  mret {| appFolder := or_else (opt_appFolder o) (Path.join [testDataFolder; "src"]);
          publicFolder := or_else (opt_publicFolder o) (Path.join [testDataFolder; "public"]);
          pluginsFolder := or_else (opt_pluginsFolder o) (Path.join [cwd; "node_modules"]) |}.

(** The folders of the first listing's [getTools]: [app] is the application
    root; the functions below are the same in both listings. *)
Definition getTools_app (dataFolder : option string) : js tools :=
  cwd ← process_cwd;
  let testDataFolder :=
    Path.normalize (default (Path.join [cwd; "test"; "data"]) dataFolder) in
  mret {| appFolder := Path.join [testDataFolder; "app"];
          publicFolder := Path.join [testDataFolder; "public"];
          pluginsFolder := Path.join [cwd; "node_modules"] |}.

Definition createFolder (folder : string) : js unit := Fs.shell_mkdir_p folder.

Definition deleteFolder (folder : string) : js unit := Fs.shell_rm_rf folder.

Definition writeFile (filePath contents : string) : js unit :=
  let dir := Path.dirname filePath in
  createFolder dir;;
  Fs.writeFileSync filePath contents.

Definition readFile (filePath : string) : js string := Fs.readFileSync filePath.

(** [fileExists] (second listing only) *)
Definition fileExists (filePath : string) : js bool :=
  try_catch (Fs.accessSync filePath;; mret true) (λ err, mret false).

Definition deleteFile (filePath : string) : js unit := Fs.unlinkSync filePath.

(** [extName] of [__createModule]: the extension of the name, [.js] when
    it has none *)
Definition extName (moduleName : string) : string :=
  let extName := Path.extname moduleName in
  if (String.length extName =? 0)%nat then ".js" else extName.

(** [fileName] of [__createModule] *)
Definition fileName (srcFolder moduleName : string) : string :=
  Path.join [srcFolder; moduleName] +:+ extName moduleName.

Definition __createModule (srcFolder moduleName moduleContent : string) : js unit :=
  let fileName := fileName srcFolder moduleName in
  let folderPath := Path.dirname fileName in
  createFolder folderPath;;
  writeFile fileName moduleContent.

(** The file-system requests one call of [__createModule] issues, in
    order: [createFolder(folderPath)], then [writeFile], which asks for the
    folder again before it writes. *)
Definition requests (srcFolder moduleName moduleContent : string) : list fs_call :=
  [MkdirP (Path.dirname (fileName srcFolder moduleName));
   MkdirP (Path.dirname (fileName srcFolder moduleName));
   WriteFile (fileName srcFolder moduleName) moduleContent].

Definition createModules (srcFolder : string) (modules : Js.modules_arg)
    (defaultContent : string) : js unit :=
  match expand modules defaultContent with
  | None => mret ()
  | Some modules =>
      Js.each modules (λ moduleContent moduleName,
        __createModule srcFolder moduleName (content_of modules moduleName))
  end.

Section WithTools.
Variable t : tools.

Definition createTestFolders : js unit :=
  createFolder (appFolder t);;
  createFolder (publicFolder t);;
  writeFile (Path.join [appFolder t; "README"]) readme.

Definition deleteTestFolders : js unit :=
  deleteFolder (publicFolder t);;
  deleteFolder (appFolder t);;
  files ← Fs.readdirSync (pluginsFolder t);
  let plugins := filter (λ file, Str.ends_with file marker = true) files in
  Js.each_array plugins (λ plugin,
    deleteFolder (Path.join [pluginsFolder t; plugin])).

Definition createPluginModules (name : string) (modules : Js.modules_arg) : js unit :=
  if negb (Str.ends_with name marker) then throw suffix_error
  else
    let pluginFolderPath := Path.join [pluginsFolder t; name] in
    let publicFolderPath := Path.join [pluginFolderPath; "public"] in
    let srcFolderPath := Path.join [pluginFolderPath; "src"] in
    createFolder pluginFolderPath;;
    writeFile (Path.join [pluginFolderPath; "package.json"]) (package_json name);;
    writeFile (Path.join [pluginFolderPath; "index.js"]) index_js;;
    createFolder publicFolderPath;;
    createFolder srcFolderPath;;
    writeFile (Path.join [srcFolderPath; "README"]) readme;;
    createModules srcFolderPath modules name.

Definition createAppModules (modules : Js.modules_arg) : js unit :=
  createModules (appFolder t) modules "app".

Definition writePackageJson (contents : string) : js unit :=
  writeFile (Path.join [appFolder t; ".."; "package.json"]) contents.

Definition deletePackageJson : js unit :=
  let fp := Path.join [appFolder t; ".."; "package.json"] in
  Fs.shell_rm_f fp.

End WithTools.

(** [function *() { return yield genOrPromiseFn }], run by co *)
Definition awaitAsync (genOrPromiseFn : Co.yieldable) : promise jsval :=
  Co.co (Co.GYield genOrPromiseFn (λ v, Co.GReturn v) (λ e, Co.GThrow e)).

(** The generator [mustThrow(genOrPromiseFn, errorMsg)] returns: it yields
    the promise of the assertion and then falls off its end. *)
Definition mustThrow (genOrPromiseFn : Co.yieldable) (errorMsg : string) : Co.generator :=
  Co.GYield
    (Co.YPromise (Must.reject_with_error (awaitAsync genOrPromiseFn) errorMsg))
    (λ _, Co.GReturn VUndefined)
    (λ e, Co.GThrow e).

(** [this.app.models]: the models by name, in the order of enumeration;
    each stands for the promise that its query
    [rawQry().delete().run()] returns. *)
Definition models : Type := list (string * promise jsval).

(** [this.app.models[model]] *)
Fixpoint model (ms : models) (name : string) : option (promise jsval) :=
  match ms with
  | [] => None
  | (k, q) :: ms' => if String.eqb name k then Some q else model ms' name
  end.

(** [_.flatten(_.toArray(arguments))]: each argument is a name or an array
    of names *)
Definition modelNames (arguments : list (string + list string)) : list string :=
  flat_map (λ a, match a with inl name => [name] | inr names => names end) arguments.

(** reading [rawQry] off a model that is not there *)
Definition no_model : jsval :=
  VError "TypeError" "Cannot read property 'rawQry' of undefined".

(** [for (let model of models) { yield this.app.models[model].rawQry().delete().run() }] *)
Fixpoint clearDb_loop (ms : models) (names : list string) : Co.generator :=
  match names with
  | [] => Co.GReturn VUndefined
  | name :: rest =>
      match model ms name with
      | None => Co.GThrow no_model
      | Some q => Co.GYieldPromise q (λ _, clearDb_loop ms rest) (λ e, Co.GThrow e)
      end
  end.

(** [clearDb] (first listing only) *)
Definition clearDb (ms : models) (arguments : list (string + list string)) : Co.generator :=
  let modelNames := modelNames arguments in
  let models := if (length modelNames =? 0)%nat then ms.*1 else modelNames in
  clearDb_loop ms models.

End Tools.

(* ===================================================================== *)
(** * [exports.create] of src/index.js                                    *)
(* ===================================================================== *)

Module IndexSync.
Import Text.

Record tools := MkTools {
  appFolder : string;
  pluginsFolder : string
}.

Definition create (dataFolder : option string) : js tools :=
  cwd ← process_cwd;
  let testDataFolder :=
    Path.normalize (default (Path.join [cwd; "test"; "data"]) dataFolder) in
  mret {| appFolder := Path.join [testDataFolder; "app"];
          pluginsFolder := Path.join [cwd; "node_modules"] |}.

Definition writeFile (filePath contents : string) : js unit :=
  Fs.writeFileSync filePath contents.

Definition readFile (filePath : string) : js string := Fs.readFileSync filePath.

Definition deleteFile (filePath : string) : js unit := Fs.unlinkSync filePath.

Definition createFolder (folder : string) : js unit := Fs.shell_mkdir_p folder.

Definition deleteFolder (folder : string) : js unit := Fs.shell_rm_rf folder.

(** [fileName] of [__createModule] *)
Definition fileName (srcFolder moduleName : string) : string :=
  Path.join [srcFolder; moduleName] +:+ ".js".

Definition __createModule (srcFolder moduleName moduleContent : string) : js unit :=
  let fileName := fileName srcFolder moduleName in
  let folderPath := Path.dirname fileName in
  createFolder folderPath;;
  writeFile fileName moduleContent.

(** The file-system requests one call of [__createModule] issues, in
    order. *)
Definition requests (srcFolder moduleName moduleContent : string) : list fs_call :=
  [MkdirP (Path.dirname (fileName srcFolder moduleName));
   WriteFile (fileName srcFolder moduleName) moduleContent].

Definition createModules (srcFolder : string) (modules : Js.modules_arg)
    (defaultContent : string) : js unit :=
  match expand modules defaultContent with
  | None => mret ()
  | Some modules =>
      Js.each modules (λ moduleContent moduleName,
        __createModule srcFolder moduleName (content_of modules moduleName))
  end.

Section WithTools.
Variable t : tools.

Definition createTestFolders : js unit :=
  createFolder (appFolder t);;
  writeFile (Path.join [appFolder t; "README"]) readme.

Definition deleteTestFolders : js unit :=
  deleteFolder (appFolder t);;
  files ← Fs.readdirSync (pluginsFolder t);
  let plugins := filter (λ file, Str.ends_with file marker = true) files in
  Js.each_array plugins (λ plugin,
    deleteFolder (Path.join [pluginsFolder t; plugin])).

Definition createPluginModules (name : string) (modules : Js.modules_arg) : js unit :=
  if negb (Str.ends_with name marker) then throw suffix_error
  else
    let pluginFolderPath := Path.join [pluginsFolder t; name] in
    let srcFolderPath := Path.join [pluginFolderPath; "src"] in
    createFolder pluginFolderPath;;
    writeFile (Path.join [pluginFolderPath; "package.json"]) (package_json name);;
    writeFile (Path.join [pluginFolderPath; "index.js"]) index_js;;
    createFolder srcFolderPath;;
    writeFile (Path.join [srcFolderPath; "README"]) readme;;
    createModules srcFolderPath modules name.

Definition createAppModules (modules : Js.modules_arg) : js unit :=
  createModules (appFolder t) modules "app".

Definition writePackageJson (contents : string) : js unit :=
  writeFile (Path.join [appFolder t; ".."; "package.json"]) contents.

Definition deletePackageJson : js unit :=
  let fp := Path.join [appFolder t; ".."; "package.json"] in
  Fs.shell_rm_f fp.

End WithTools.

End IndexSync.

(* ===================================================================== *)
(** * [module.exports = function(_module, _dataFolder)] of src/index.js   *)
(* ===================================================================== *)

Module IndexAsync.
Import Text.

Record testUtils := MkTestUtils {
  appFolder : string;
  pluginsFolder : string
}.

Definition create (_dataFolder : option string) : js testUtils :=
  cwd ← process_cwd;
  let _dataFolder := or_else _dataFolder (Path.join [cwd; "test"; "data"]) in
  let testDataFolder := Path.normalize _dataFolder in
  mret {| appFolder := Path.join [testDataFolder; "app"];
          pluginsFolder := Path.join [cwd; "node_modules"] |}.

Definition writeFile (filePath contents : string) : js (promise unit) :=
  Fs.writeFileAsync filePath contents.

(** [contents.toString()] of a string is that string *)
Definition readFile (filePath : string) : js (promise string) :=
  Promise.then_ (Fs.readFileAsync filePath) (λ contents, ret (Fulfilled contents)).

Definition createFolder (folder : string) : js (promise unit) := Fs.mkdirpAsync folder.

Definition deleteFolder (folder : string) : js (promise unit) := Fs.rimrafAsync folder.

(** [fileName] of [__createModule] *)
Definition fileName (srcFolder moduleName : string) : string :=
  Path.join [srcFolder; moduleName] +:+ ".js".

Definition __createModule (srcFolder moduleName moduleContent : string)
  : js (promise unit) :=
  let fileName := fileName srcFolder moduleName in
  let folderPath := Path.dirname fileName in
  Promise.then_ (createFolder folderPath)
    (λ _, writeFile fileName moduleContent).

(** The file-system requests one call of [__createModule] issues when
    both of its steps run, in order. *)
Definition requests (srcFolder moduleName moduleContent : string) : list fs_call :=
  [MkdirP (Path.dirname (fileName srcFolder moduleName));
   WriteFile (fileName srcFolder moduleName) moduleContent].

(** The loop only extends the chain held in the variable [promise]; the
    file system is touched when the chain runs. *)
Definition createModules (srcFolder : string) (modules : Js.modules_arg)
    (defaultContent : string) : js (promise unit) :=
  let promise := Promise.resolve in
  match expand modules defaultContent with
  | None => promise
  | Some modules =>
      fold_left (λ promise kv,
                   Promise.then_ promise (λ _,
                     __createModule srcFolder kv.1 (content_of modules kv.1)))
                modules promise
  end.

Section WithTestUtils.
Variable t : testUtils.

Definition createTestFolders : js (promise unit) :=
  Promise.then_ (createFolder (appFolder t))
    (λ _, writeFile (Path.join [appFolder t; "README"]) readme).

Definition deleteTestFolders : js (promise (list unit)) :=
  Promise.then_ (deleteFolder (appFolder t)) (λ _,
    Promise.then_ (Fs.readdirAsync (pluginsFolder t)) (λ files,
      let plugins := filter (λ file, Str.ends_with file marker = true) files in
      Promise.all
        (map (λ plugin, deleteFolder (Path.join [pluginsFolder t; plugin])) plugins))).

Definition createPluginModules (name : string) (modules : Js.modules_arg)
  : js (promise unit) :=
  if negb (Str.ends_with name marker) then throw suffix_error
  else
    let pluginFolderPath := Path.join [pluginsFolder t; name] in
    let srcFolderPath := Path.join [pluginFolderPath; "src"] in
    Promise.then_
      (Promise.then_
         (Promise.then_
            (Promise.then_ (createFolder pluginFolderPath) (λ _,
               Promise.all
                 [ writeFile (Path.join [pluginFolderPath; "package.json"])
                     (package_json name);
                   writeFile (Path.join [pluginFolderPath; "index.js"]) index_js ]))
            (λ _, createFolder srcFolderPath))
         (λ _, writeFile (Path.join [srcFolderPath; "README"]) readme))
      (λ _, createModules srcFolderPath modules name).

Definition createAppModules (modules : Js.modules_arg) : js (promise unit) :=
  createModules (appFolder t) modules "app".

Definition writePackageJson (contents : string) : js (promise unit) :=
  writeFile (Path.join [appFolder t; ".."; "package.json"]) contents.

(** the callback returns nothing when the file is not there: the promise
    is then fulfilled with [undefined] *)
Definition deletePackageJson : js (promise unit) :=
  let fp := Path.join [appFolder t; ".."; "package.json"] in
  Promise.then_ (Fs.existsAsync fp) (λ exists_,
    if exists_ : bool then Fs.unlinkAsync fp else ret (Fulfilled ())).

End WithTestUtils.

End IndexAsync.

(* ===================================================================== *)
(** * Sample runs                                                          *)
(* ===================================================================== *)

Definition empty_world : world := World "/home/u/proj" ∅ [].

Definition sample_tools : Tools.tools :=
  Tools.MkTools "/home/u/proj/test/data/src" "/home/u/proj/test/data/public"
    "/home/u/proj/node_modules".

(** A project with fixtures in place: an application root, a public root,
    a test plugin and an installed package. *)
Definition sample_world : world :=
  World "/home/u/proj"
    (list_to_map
       [ (["home"], Dir);
         (["home"; "u"], Dir);
         (["home"; "u"; "proj"], Dir);
         (["home"; "u"; "proj"; "node_modules"], Dir);
         (["home"; "u"; "proj"; "node_modules"; "lodash"], Dir);
         (["home"; "u"; "proj"; "node_modules"; "lodash"; "index.js"], File "// lodash");
         (["home"; "u"; "proj"; "node_modules"; "p_TESTPLUGIN"], Dir);
         (["home"; "u"; "proj"; "node_modules"; "p_TESTPLUGIN"; "index.js"],
          File "module.exports = {}");
         (["home"; "u"; "proj"; "test"], Dir);
         (["home"; "u"; "proj"; "test"; "data"], Dir);
         (["home"; "u"; "proj"; "test"; "data"; "src"], Dir);
         (["home"; "u"; "proj"; "test"; "data"; "src"; "README"], File "readme");
         (["home"; "u"; "proj"; "test"; "data"; "app"], Dir);
         (["home"; "u"; "proj"; "test"; "data"; "app"; "README"], File "readme");
         (["home"; "u"; "proj"; "test"; "data"; "public"], Dir);
         (["home"; "u"; "proj"; "test"; "data"; "public"; "logo.png"], File "png") ])
    [].


Example normalize_sample : Path.normalize "/a/b/../c/./d/" = "/a/c/d/".
Proof. reflexivity. Qed.

Example join_samples :
  Path.join ["/r"; "a/x"] = "/r/a/x"
  ∧ Path.join ["/r"; "../x"] = "/x"
  ∧ Path.join ["/r"; ""] = "/r"
  ∧ Path.join ["/d/app"; ".."; "package.json"] = "/d/package.json"
  ∧ Path.join ["a"; "../../b"] = "../b".
Proof. repeat split; reflexivity. Qed.

Example dirname_samples :
  Path.dirname "/r/a/x.js" = "/r/a"
  ∧ Path.dirname "/x.js" = "/"
  ∧ Path.dirname "a//b" = "a/"
  ∧ Path.dirname "x" = "."
  ∧ Path.dirname "/r/a/" = "/r".
Proof. repeat split; reflexivity. Qed.

Example extname_samples :
  Path.extname "foo.css" = ".css"
  ∧ Path.extname "a/x" = ""
  ∧ Path.extname ".bashrc" = ""
  ∧ Path.extname "a.b/.." = ""
  ∧ Path.extname "a.b/c." = "."
  ∧ Path.extname "x/..a" = ".a"
  ∧ Path.extname "a.tar.gz/" = ".gz".
Proof. repeat split; reflexivity. Qed.

Example resolve_sample :
  Path.resolve "/home/u" "test/data/../x" = ["home"; "u"; "test"; "x"].
Proof. reflexivity. Qed.

Example array_index_samples :
  Js.array_index "0" = Some 0%N
  ∧ Js.array_index "12" = Some 12%N
  ∧ Js.array_index "012" = None
  ∧ Js.array_index "4294967295" = None
  ∧ Js.array_index "a/x" = None.
Proof. repeat split; reflexivity. Qed.

Example getTools_sample :
  (Tools.getTools (Tools.Options None None None None) empty_world).1 = Normal sample_tools.
Proof. vm_compute. reflexivity. Qed.

Example createModules_sample :
  let w := (Tools.createModules "/r" (Js.ModulesArray ["a/x"; "foo.css"]) "app" empty_world).2 in
  files w !! ["r"; "a"; "x.js"] = Some (File (Text.default_module "app"))
  ∧ files w !! ["r"; "foo.css.css"] = Some (File (Text.default_module "app"))
  ∧ calls w = [MkdirP "/r/a"; MkdirP "/r/a"; WriteFile "/r/a/x.js" (Text.default_module "app");
               MkdirP "/r"; MkdirP "/r"; WriteFile "/r/foo.css.css" (Text.default_module "app")].
Proof. vm_compute. repeat split; reflexivity. Qed.

(* ===================================================================== *)
(** * The monad                                                           *)
(* ===================================================================== *)

Section Monad.
Context {A B C : Type}.

Lemma bind_ret_r (m : js A) (w : world) : bind m ret w = m w.
Proof. unfold bind, ret. destruct (m w) as [[a|e] w']; reflexivity. Qed.

Lemma bind_assoc (m : js A) (k : A → js B) (h : B → js C) (w : world) :
  bind (bind m k) h w = bind m (λ a, bind (k a) h) w.
Proof. unfold bind. destruct (m w) as [[a|e] w']; reflexivity. Qed.

Lemma bind_ext (m : js A) (k k' : A → js B) (w : world) :
  (∀ a w', k a w' = k' a w') → bind m k w = bind m k' w.
Proof. intros H. unfold bind. destruct (m w) as [[a|e] w']; [apply H | reflexivity]. Qed.



End Monad.

(* ===================================================================== *)
(** * The marker suffix guard                                             *)
(* ===================================================================== *)

Lemma ends_with_refl (s : string) : Str.ends_with s s = true.
Proof. destruct s; cbn [Str.ends_with]; [reflexivity | by rewrite String.eqb_refl]. Qed.

Lemma ends_with_app (a s : string) : Str.ends_with (a +:+ s) s = true.
Proof.
  induction a as [|c a IH].
  - apply ends_with_refl.
  - change (String c a +:+ s) with (String c (a +:+ s)).
    cbn [Str.ends_with]. rewrite IH. apply orb_true_r.
Qed.

Lemma ends_with_inv (s suffix : string) :
  Str.ends_with s suffix = true → ∃ a, s = a +:+ suffix.
Proof.
  induction s as [|c s IH]; cbn [Str.ends_with]; intros H.
  - rewrite orb_false_r in H. apply String.eqb_eq in H. exists "". by subst.
  - apply orb_true_iff in H as [H|H].
    + apply String.eqb_eq in H. exists "". by subst.
    + destruct (IH H) as [a ->]. by exists (String c a).
Qed.

(** C1. For every plugin name [n] that does not end with [_TESTPLUGIN] and
    every [modules] argument, [createPluginModules(n, modules)] throws
    [Error("Test plugin name has incorrect suffix")] synchronously, in each
    of the three harnesses (the promise-returning one throws too: it does
    not return a rejected promise), and leaves the process exactly as it
    was: no file-system request is issued and the file tree is unchanged.
    In particular the directory [<pluginsFolder>/n] is not created: where it
    was absent before the call it is absent after it. *)
Theorem createPluginModules_bad_suffix (n : string) (modules : Js.modules_arg) (w : world) :
  Str.ends_with n "_TESTPLUGIN" = false →
  (∀ t, Tools.createPluginModules t n modules w
        = (Throw (VError "Error" "Test plugin name has incorrect suffix"), w))
  ∧ (∀ t, IndexSync.createPluginModules t n modules w
          = (Throw (VError "Error" "Test plugin name has incorrect suffix"), w))
  ∧ (∀ t, IndexAsync.createPluginModules t n modules w
          = (Throw (VError "Error" "Test plugin name has incorrect suffix"), w))
  ∧ (∀ t, let dir := Path.resolve (cwd w) (Path.join [Tools.pluginsFolder t; n]) in
          let w' := (Tools.createPluginModules t n modules w).2 in
          calls w' = calls w
          ∧ files w' = files w
          ∧ (files w !! dir = None → files w' !! dir = None)).
Proof.
  intros Hn.
  assert (HT : ∀ t, Tools.createPluginModules t n modules w
                    = (Throw Text.suffix_error, w)).
  { intros t. unfold Tools.createPluginModules, Text.marker. by rewrite Hn. }
  repeat split.
  - apply HT.
  - intros t. unfold IndexSync.createPluginModules, Text.marker. by rewrite Hn.
  - intros t. unfold IndexAsync.createPluginModules, Text.marker. by rewrite Hn.
  - by rewrite HT.
  - by rewrite HT.
  - by rewrite HT.
Qed.

Lemma createPluginModules_bad_suffix_witness :
  Tools.createPluginModules sample_tools "lodash" (Js.ModulesArray ["a/x"]) empty_world
  = (Throw (VError "Error" "Test plugin name has incorrect suffix"), empty_world).
Proof.
  exact (proj1 (createPluginModules_bad_suffix "lodash" (Js.ModulesArray ["a/x"])
                  empty_world eq_refl) sample_tools).
Defined.

(* ===================================================================== *)
(** * No modules, no file-system request                                  *)
(* ===================================================================== *)

(** C10. [createModules] called with [modules] left out or [null] issues no
    file-system request, leaves the process as it was and returns normally
    (the promise-returning harness returns an already fulfilled promise).
    Hence [createAppModules()] changes nothing, and a [createPluginModules]
    run is the run without modules (the scaffolding) followed by
    [createModules] on the plugin's [src] folder: without modules that last
    step changes nothing. *)
Theorem createModules_absent (srcFolder defaultContent : string) (w : world) :
  Tools.createModules srcFolder Js.ModulesUndefined defaultContent w = (Normal (), w)
  ∧ Tools.createModules srcFolder Js.ModulesNull defaultContent w = (Normal (), w)
  ∧ IndexSync.createModules srcFolder Js.ModulesUndefined defaultContent w = (Normal (), w)
  ∧ IndexSync.createModules srcFolder Js.ModulesNull defaultContent w = (Normal (), w)
  ∧ IndexAsync.createModules srcFolder Js.ModulesUndefined defaultContent w
    = (Normal (Fulfilled ()), w)
  ∧ IndexAsync.createModules srcFolder Js.ModulesNull defaultContent w
    = (Normal (Fulfilled ()), w)
  ∧ (∀ t, Tools.createAppModules t Js.ModulesUndefined w = (Normal (), w))
  ∧ (∀ t, IndexSync.createAppModules t Js.ModulesUndefined w = (Normal (), w))
  ∧ (∀ t, IndexAsync.createAppModules t Js.ModulesUndefined w = (Normal (Fulfilled ()), w))
  ∧ (∀ t name modules,
       Tools.createPluginModules t name modules w
       = bind (Tools.createPluginModules t name Js.ModulesUndefined)
           (λ _, Tools.createModules
                   (Path.join [Path.join [Tools.pluginsFolder t; name]; "src"])
                   modules name) w)
  ∧ (∀ t name modules,
       IndexSync.createPluginModules t name modules w
       = bind (IndexSync.createPluginModules t name Js.ModulesUndefined)
           (λ _, IndexSync.createModules
                   (Path.join [Path.join [IndexSync.pluginsFolder t; name]; "src"])
                   modules name) w).
Proof.
  repeat split; try reflexivity.
  - intros t name modules.
    unfold Tools.createPluginModules.
    destruct (negb (Str.ends_with name Text.marker)); [reflexivity|].
    unfold mbind, js_bind. symmetry.
    do 6 (rewrite bind_assoc; apply bind_ext; intros [] ?).
    reflexivity.
  - intros t name modules.
    unfold IndexSync.createPluginModules.
    destruct (negb (Str.ends_with name Text.marker)); [reflexivity|].
    unfold mbind, js_bind. symmetry.
    do 5 (rewrite bind_assoc; apply bind_ext; intros [] ?).
    reflexivity.
Qed.

(* ===================================================================== *)
(** * The coroutine bridge                                                *)
(* ===================================================================== *)

(** co calls [resolve] or [reject] at most once. *)
Lemma co_calls_at_most_once (g : Co.generator) : (length (Co.co_calls g) ≤ 1)%nat.
Proof.
  induction g as [v|e|p next IHn throw_ IHt|g' IHg next IHn throw_ IHt|v next IHn throw_ IHt];
    cbn [Co.co_calls].
  - simpl; lia.
  - simpl; lia.
  - destruct p; [simpl; lia | apply IHn | apply IHt].
  - destruct (Co.promise_of_calls (Co.co_calls g')); [simpl; lia | apply IHn | apply IHt].
  - apply IHt.
Qed.

Lemma co_calls_cases (g : Co.generator) :
  Co.co_calls g = []
  ∨ (∃ v, Co.co_calls g = [Co.CallResolve v])
  ∨ (∃ e, Co.co_calls g = [Co.CallReject e]).
Proof.
  pose proof (co_calls_at_most_once g) as H.
  destruct (Co.co_calls g) as [|[v|e] [|c l]]; simpl in H; try lia; eauto.
Qed.

(** The calls co makes are read off the promise it returns. *)
Lemma co_calls_of_state (g : Co.generator) :
  Co.co_calls g =
    match Co.co g with
    | Pending => []
    | Fulfilled v => [Co.CallResolve v]
    | Rejected e => [Co.CallReject e]
    end.
Proof.
  unfold Co.co.
  destruct (co_calls_cases g) as [H|[[v H]|[e H]]]; rewrite H; reflexivity.
Qed.

(** [awaitAsync] of a generator is what co makes of that generator. *)
Lemma awaitAsync_generator (g : Co.generator) :
  Tools.awaitAsync (Co.YGenerator g) = Co.co g.
Proof.
  unfold Tools.awaitAsync, Co.co. cbn [Co.GYield Co.co_calls].
  destruct (Co.promise_of_calls (Co.co_calls g)); reflexivity.
Qed.

Lemma awaitAsync_promise (p : promise jsval) :
  Tools.awaitAsync (Co.YPromise p) = p.
Proof. destruct p; reflexivity. Qed.

(** C9. [awaitAsync] of a promise settles exactly as that promise does:
    with its value, with its failure, or not at all while it stays pending.
    [awaitAsync] of a suspend/resume sequence that throws [e] before or at
    its first suspension point (it throws at once, or the first promise or
    generator it waits for fails with [e] and the sequence lets the error
    through, or it yields something co cannot wait for and lets co's error
    through) is rejected with exactly that error.  In every case co settles the
    returned promise by at most one call, a [resolve] or a [reject], and by
    exactly one when the promise is settled. *)
Theorem awaitAsync_settles :
  (∀ p : promise jsval, Tools.awaitAsync (Co.YPromise p) = p)
  ∧ (∀ e, Tools.awaitAsync (Co.YGenerator (Co.GThrow e)) = Rejected e)
  ∧ (∀ e next throw_,
       throw_ e = Co.GThrow e →
       Tools.awaitAsync (Co.YGenerator (Co.GYieldPromise (Rejected e) next throw_))
       = Rejected e)
  ∧ (∀ g e next throw_,
       Co.co g = Rejected e → throw_ e = Co.GThrow e →
       Tools.awaitAsync (Co.YGenerator (Co.GYieldGenerator g next throw_))
       = Rejected e)
  ∧ (∀ v next throw_,
       throw_ (Co.not_yieldable v) = Co.GThrow (Co.not_yieldable v) →
       Tools.awaitAsync (Co.YGenerator (Co.GYieldValue v next throw_))
       = Rejected (Co.not_yieldable v))
  ∧ (∀ x : Co.yieldable,
       let calls := Co.co_calls (Co.GYield x (λ v, Co.GReturn v) (λ e, Co.GThrow e)) in
       (length calls ≤ 1)%nat
       ∧ match Tools.awaitAsync x with
         | Pending => calls = []
         | Fulfilled v => calls = [Co.CallResolve v]
         | Rejected e => calls = [Co.CallReject e]
         end).
Proof.
  split; [exact awaitAsync_promise|].
  split; [intros e; reflexivity|].
  split.
  { intros e next throw_ H. rewrite awaitAsync_generator.
    unfold Co.co. cbn [Co.co_calls]. rewrite H. reflexivity. }
  split.
  { intros g e next throw_ Hg H. rewrite awaitAsync_generator.
    unfold Co.co in *. cbn [Co.co_calls]. rewrite Hg, H. reflexivity. }
  split.
  { intros v next throw_ H. rewrite awaitAsync_generator.
    unfold Co.co. cbn [Co.co_calls]. rewrite H. reflexivity. }
  intros x calls. split.
  - apply co_calls_at_most_once.
  - subst calls. unfold Tools.awaitAsync.
    rewrite (co_calls_of_state (Co.GYield x (λ v, Co.GReturn v) (λ e, Co.GThrow e))).
    by destruct (Co.co _).
Qed.

(** What co makes of the generator [mustThrow] returns. *)
Lemma co_mustThrow (c : Co.yieldable) (msg : string) :
  Co.co (Tools.mustThrow c msg)
  = Must.reject_with_error (Tools.awaitAsync c) msg.
Proof.
  unfold Tools.mustThrow, Co.co, Must.reject_with_error. cbn [Co.GYield Co.co_calls].
  destruct (Tools.awaitAsync c) as [|v|e]; try reflexivity.
  destruct (Must.is_error_with e msg); reflexivity.
Qed.

(** C4. Run by co, [mustThrow(c, msg)] is fulfilled if and only if the
    outcome of [c] is a failure that is an [Error] whose message is [msg];
    it is rejected with an [AssertionError] when [c] resolves normally and
    when [c] fails with anything else (an error with another message, or a
    thrown value that is not an [Error]). *)
Theorem mustThrow_iff (c : Co.yieldable) (msg : string) :
  ((∃ v, Co.co (Tools.mustThrow c msg) = Fulfilled v)
   ↔ ∃ name, Tools.awaitAsync c = Rejected (VError name msg))
  ∧ (∀ v, Tools.awaitAsync c = Fulfilled v →
          ∃ m, Co.co (Tools.mustThrow c msg) = Rejected (VError "AssertionError" m))
  ∧ (∀ e, Tools.awaitAsync c = Rejected e →
          (∀ name, e ≠ VError name msg) →
          ∃ m, Co.co (Tools.mustThrow c msg) = Rejected (VError "AssertionError" m)).
Proof.
  rewrite co_mustThrow. unfold Must.reject_with_error, Must.assertion_error.
  destruct (Tools.awaitAsync c) as [|v|e].
  - repeat split; try discriminate.
    + intros [v H]; discriminate.
    + intros [name H]; discriminate.
  - repeat split; try discriminate.
    + intros [v' H]; discriminate.
    + intros [name H]; discriminate.
    + intros v' _. eauto.
  - destruct e as [|n|s|name message]; cbn [Must.is_error_with].
    1-3: repeat split; try discriminate;
         [ intros [v H]; discriminate | intros [name H]; discriminate | eauto ].
    destruct (String.eqb_spec message msg) as [->|Hne].
    + repeat split; eauto; try discriminate.
      intros e [= <-] H. by destruct (H name).
    + repeat split; try discriminate.
      * intros [v H]; discriminate.
      * intros [name' [= _ H]]; contradiction.
      * eauto.
Qed.

Example mustThrow_samples :
  Co.co (Tools.mustThrow (Co.YPromise (Fulfilled (VNumber 42))) "boom")
  = Rejected (VError "AssertionError" "Resolved")
  ∧ Co.co (Tools.mustThrow (Co.YGenerator (Co.GThrow (VError "Error" "boom"))) "boom")
    = Fulfilled VUndefined
  ∧ Co.co (Tools.mustThrow (Co.YGenerator (Co.GThrow (VError "Error" "bang"))) "boom")
    = Rejected (VError "AssertionError" "Error: bang must be an error matching boom")
  ∧ Co.co (Tools.mustThrow (Co.YGenerator (Co.GThrow (VString "boom"))) "boom")
    = Rejected (VError "AssertionError" "boom must be an error matching boom").
Proof. repeat split; reflexivity. Qed.

(* ===================================================================== *)
(** * Strings and slashes                                                 *)
(* ===================================================================== *)

Section StringFacts.
Import Str.

Lemma app_cons (c : ascii) (a b : string) : String c a +:+ b = String c (a +:+ b).
Proof. reflexivity. Qed.

Lemma app_empty_l (a : string) : "" +:+ a = a.
Proof. reflexivity. Qed.

Lemma app_empty_r (a : string) : a +:+ "" = a.
Proof. induction a as [|c a IH]; [reflexivity|]. by rewrite app_cons, IH. Qed.

Lemma app_assoc_s (a b c : string) : (a +:+ b) +:+ c = a +:+ (b +:+ c).
Proof. induction a as [|x a IH]; [reflexivity|]. by rewrite !app_cons, IH. Qed.

Lemma app_eq_empty (a b : string) : a +:+ b = "" → a = "" ∧ b = "".
Proof. destruct a; [intros H; split; [reflexivity | exact H] | discriminate]. Qed.

Lemma contains_app (c : ascii) (a b : string) :
  contains c (a +:+ b) = contains c a || contains c b.
Proof.
  induction a as [|x a IH]; [reflexivity|].
  rewrite app_cons. cbn [contains]. by rewrite IH, orb_assoc.
Qed.

Lemma split_slash_nonnil (s : string) : split_slash s ≠ [].
Proof.
  destruct s as [|c s]; cbn [split_slash]; [done|].
  destruct (is_slash c); [done|]. by destruct (split_slash s).
Qed.

Lemma split_slash_no_slash (s : string) :
  contains "/"%char s = false → split_slash s = [s].
Proof.
  induction s as [|c s IH]; cbn [split_slash contains]; [done|].
  intros [Hc Hs]%orb_false_elim. unfold is_slash. rewrite Hc, (IH Hs). done.
Qed.

Lemma split_slash_elems (s : string) :
  Forall (λ x, contains "/"%char x = false) (split_slash s).
Proof.
  induction s as [|c s IH]; cbn [split_slash].
  - by constructor.
  - destruct (is_slash c) eqn:Hc; [by constructor|].
    pose proof (split_slash_nonnil s) as Hn.
    destruct (split_slash s) as [|h t]; [done|].
    inversion_clear IH as [|?? Hh Ht]. constructor; [|done].
    cbn [contains]. unfold is_slash in Hc. by rewrite Hc, Hh.
Qed.

Lemma split_slash_app_slash (a b : string) :
  split_slash (a +:+ "/" +:+ b) = split_slash a ++ split_slash b.
Proof.
  induction a as [|c a IH].
  - reflexivity.
  - rewrite app_cons. cbn [split_slash]. rewrite IH.
    destruct (is_slash c); [reflexivity|].
    pose proof (split_slash_nonnil a).
    by destruct (split_slash a).
Qed.

Lemma split_slash_app_end (s e : string) (l : list string) (x : string) :
  split_slash s = l ++ [x] → contains "/"%char e = false →
  split_slash (s +:+ e) = l ++ [x +:+ e].
Proof.
  revert l x. induction s as [|c s IH]; intros l x Hs He.
  - cbn [split_slash] in Hs. destruct l as [|? [|? ?]]; simplify_eq/=.
    by apply split_slash_no_slash.
  - rewrite app_cons. cbn [split_slash] in *.
    destruct (is_slash c).
    + destruct l as [|y l]; simplify_eq/=.
      { by destruct (split_slash_nonnil s). }
      by rewrite (IH l x).
    + pose proof (split_slash_nonnil s) as Hn.
      destruct (split_slash s) as [|h t] eqn:Hsplit; [done|].
      destruct l as [|y l]; simplify_eq/=.
      * by rewrite (IH [] h eq_refl He).
      * by rewrite (IH (h :: l) x eq_refl He).
Qed.

Lemma join_slash_cons (x : string) (l : list string) :
  l ≠ [] → join_slash (x :: l) = x +:+ "/" +:+ join_slash l.
Proof. by destruct l. Qed.

Lemma join_slash_snoc (l : list string) (x : string) :
  l ≠ [] → join_slash (l ++ [x]) = join_slash l +:+ "/" +:+ x.
Proof.
  induction l as [|y l IH]; [done|]. intros _.
  destruct l as [|z l]; [reflexivity|].
  change ((y :: z :: l) ++ [x]) with (y :: ((z :: l) ++ [x])).
  rewrite !join_slash_cons by done.
  rewrite IH by done. by rewrite !app_assoc_s.
Qed.

Lemma join_slash_app_end (l : list string) (x e : string) :
  join_slash (l ++ [x]) +:+ e = join_slash (l ++ [x +:+ e]).
Proof.
  destruct l as [|y l]; [reflexivity|].
  rewrite !join_slash_snoc by done. by rewrite !app_assoc_s.
Qed.

Lemma split_join_slash (segs : list string) :
  segs ≠ [] → Forall (λ x, contains "/"%char x = false) segs →
  split_slash (join_slash segs) = segs.
Proof.
  induction segs as [|x l IH]; [done|]. intros _ H.
  inversion_clear H as [|?? Hx Hl].
  destruct l as [|y l]; [by apply split_slash_no_slash|].
  rewrite join_slash_cons by done.
  rewrite split_slash_app_slash, (split_slash_no_slash x Hx), IH by done.
  reflexivity.
Qed.

Lemma join_split_slash (s : string) : join_slash (split_slash s) = s.
Proof.
  induction s as [|c s IH]; [reflexivity|].
  cbn [split_slash]. destruct (is_slash c) eqn:Hc.
  - apply Ascii.eqb_eq in Hc as ->.
    rewrite join_slash_cons by apply split_slash_nonnil. by rewrite IH.
  - pose proof (split_slash_nonnil s).
    destruct (split_slash s) as [|h [|h' t]]; [done|..].
    + cbn in IH |- *. by rewrite IH.
    + rewrite join_slash_cons in IH |- * by done.
      rewrite app_cons. by rewrite IH.
Qed.

Lemma ends_with_slash_app (a x : string) :
  x ≠ "" → ends_with_slash (a +:+ x) = ends_with_slash x.
Proof.
  intros Hx. induction a as [|c a IH]; [reflexivity|].
  rewrite app_cons. cbn [ends_with_slash].
  destruct (a +:+ x) eqn:E; [|done].
  by apply app_eq_empty in E as [_ ?].
Qed.

Lemma ends_with_slash_no_slash (x : string) :
  contains "/"%char x = false → ends_with_slash x = false.
Proof.
  induction x as [|c x IH]; [done|].
  cbn [contains ends_with_slash]. intros [Hc Hx]%orb_false_elim.
  destruct x; [exact Hc | by apply IH].
Qed.

Lemma strip_trailing_slashes_id (s : string) :
  ends_with_slash s = false → strip_trailing_slashes s = s.
Proof.
  induction s as [|c s IH]; [done|].
  cbn [ends_with_slash strip_trailing_slashes].
  destruct s as [|c' s]; [by intros ->|].
  intros H. rewrite (IH H). reflexivity.
Qed.

Lemma rsplit_none (c : ascii) (s : string) :
  contains c s = false → rsplit c s = None.
Proof.
  induction s as [|x s IH]; [done|].
  cbn [contains rsplit]. intros [Hx Hs]%orb_false_elim. by rewrite (IH Hs), Hx.
Qed.

Lemma rsplit_last (c : ascii) (a x : string) :
  contains c x = false → rsplit c (a +:+ String c x) = Some (a, x).
Proof.
  intros Hx. induction a as [|y a IH].
  - cbn [String.app rsplit]. change ("" +:+ String c x) with (String c x).
    cbn [rsplit]. by rewrite (rsplit_none c x Hx), Ascii.eqb_refl.
  - rewrite app_cons. cbn [rsplit]. by rewrite IH.
Qed.

End StringFacts.

(* ===================================================================== *)
(** * Paths: what [join], [dirname] and [extname] compute                 *)
(* ===================================================================== *)

Section PathFacts.
Import Str Path.

Local Abbreviation ordinary := (λ n : string, ordinary_name n = true).
Local Abbreviation no_slash := (λ n : string, contains "/"%char n = false).

Lemma ordinary_name_spec (n : string) :
  ordinary_name n = true ↔ n ≠ "" ∧ n ≠ "." ∧ n ≠ ".." ∧ contains "/"%char n = false.
Proof.
  unfold ordinary_name.
  rewrite !andb_true_iff, !negb_true_iff, !String.eqb_neq. tauto.
Qed.

Lemma ordinary_no_slash (l : list string) : Forall ordinary l → Forall no_slash l.
Proof.
  intros H. eapply Forall_impl; [exact H|].
  intros n Hn. apply ordinary_name_spec in Hn. tauto.
Qed.

Lemma plain_Forall (m : string) : plain m = true ↔ Forall ordinary (split_slash m).
Proof.
  unfold plain. rewrite forallb_forall, Forall_forall.
  split; intros H x Hx; apply H; by apply list_elem_of_In.
Qed.

Lemma plain_nonempty (m : string) : plain m = true → m ≠ "".
Proof. by intros H ->. Qed.

Lemma norm_step_ordinary (b : bool) (acc : list string) (seg : string) :
  ordinary_name seg = true → norm_step b acc seg = seg :: acc.
Proof.
  intros (H1 & H2 & H3 & _)%ordinary_name_spec. unfold norm_step.
  apply String.eqb_neq in H1, H2, H3. by rewrite H1, H2, H3.
Qed.

Lemma fold_norm_ordinary (b : bool) (segs acc : list string) :
  Forall ordinary segs → fold_left (norm_step b) segs acc = rev segs ++ acc.
Proof.
  intros H. revert acc. induction H as [|x l Hx Hl IH]; intros acc; [done|].
  cbn [fold_left rev]. rewrite norm_step_ordinary by done.
  rewrite IH. by rewrite <- app_assoc.
Qed.

Lemma norm_segs_app_ordinary (b : bool) (xs ys : list string) :
  Forall ordinary ys → norm_segs b (xs ++ ys) = norm_segs b xs ++ ys.
Proof.
  intros H. unfold norm_segs. rewrite fold_left_app, fold_norm_ordinary by done.
  by rewrite rev_app_distr, rev_involutive.
Qed.

Lemma fold_norm_keeps_ordinary (segs acc : list string) :
  Forall no_slash segs → Forall ordinary acc →
  Forall ordinary (fold_left (norm_step false) segs acc).
Proof.
  intros H. revert acc. induction H as [|x l Hx Hl IH]; intros acc Hacc; [done|].
  cbn [fold_left]. apply IH. unfold norm_step.
  destruct (String.eqb_spec x ""); [done|].
  destruct (String.eqb_spec x "."); [done|]. cbn [orb].
  destruct (String.eqb_spec x "..").
  - destruct acc as [|top rest]; [done|].
    destruct (String.eqb top ".."); [done|]. by inversion Hacc.
  - constructor; [|done]. by apply ordinary_name_spec.
Qed.

Lemma norm_segs_ordinary (segs : list string) :
  Forall no_slash segs → Forall ordinary (norm_segs false segs).
Proof.
  intros H. unfold norm_segs. apply Forall_rev.
  by apply fold_norm_keeps_ordinary.
Qed.

Lemma resolve_ordinary (cwd p : string) : Forall ordinary (resolve cwd p).
Proof. apply norm_segs_ordinary, split_slash_elems. Qed.

Lemma resolve_absolute (cwd p : string) :
  isAbsolute p = true → resolve cwd p = norm_segs false (split_slash p).
Proof. unfold resolve. by intros ->. Qed.

Lemma join_slash_nonempty (x : string) (l : list string) :
  x ≠ "" → join_slash (x :: l) ≠ "".
Proof.
  intros Hx. destruct l as [|y l]; [done|].
  rewrite join_slash_cons by done. by destruct x.
Qed.

(** A string that is a slash followed by ordinary names resolves to them. *)
Lemma resolve_root_string (cwd : string) (X : list string) :
  Forall ordinary X → resolve cwd ("/" +:+ join_slash X) = X.
Proof.
  intros HX. rewrite resolve_absolute by reflexivity.
  destruct X as [|x X]; [reflexivity|].
  change ("/" +:+ join_slash (x :: X)) with ("" +:+ "/" +:+ join_slash (x :: X)).
  rewrite split_slash_app_slash.
  rewrite split_join_slash by (done || by apply ordinary_no_slash).
  change (split_slash "") with ([""]).
  by rewrite norm_segs_app_ordinary.
Qed.

Lemma ends_with_slash_plain (m : string) : plain m = true → ends_with_slash m = false.
Proof.
  intros H%plain_Forall. rewrite <- (join_split_slash m).
  destruct (split_slash m) as [|x l] using rev_ind; [done|].
  apply Forall_app in H as [_ Hx]. inversion_clear Hx as [|?? Hx' _].
  apply ordinary_name_spec in Hx' as (Hne & _ & _ & Hs).
  destruct l as [|y l] using rev_ind.
  - by apply ends_with_slash_no_slash.
  - rewrite join_slash_snoc by (by destruct l).
    rewrite <- app_assoc_s, ends_with_slash_app by done.
    by apply ends_with_slash_no_slash.
Qed.

(** [path.join(r, m)] for an absolute folder and a plain name. *)
Lemma join_plain (cwd r m : string) :
  isAbsolute r = true → plain m = true →
  join [r; m] = "/" +:+ join_slash (resolve cwd r ++ split_slash m).
Proof.
  intros Hr Hm. pose proof (plain_nonempty m Hm) as Hne.
  assert (Hr' : r ≠ "") by (by intros ->).
  unfold join. rewrite filter_cons_True by done.
  rewrite filter_cons_True by done. rewrite filter_nil.
  change (join_slash [r; m]) with (r +:+ "/" +:+ m).
  unfold normalize.
  assert (Habs : isAbsolute (r +:+ "/" +:+ m) = true) by (by destruct r).
  rewrite Habs. cbn [negb].
  destruct (String.eqb_spec (r +:+ "/" +:+ m) "") as [E|_].
  { by apply app_eq_empty in E as [? _]. }
  replace (ends_with_slash (r +:+ "/" +:+ m)) with false; last first.
  { symmetry. rewrite ends_with_slash_app by (by destruct m).
    rewrite (ends_with_slash_app "/" m) by done.
    by apply ends_with_slash_plain. }
  rewrite split_slash_app_slash.
  rewrite norm_segs_app_ordinary by (by apply plain_Forall).
  rewrite <- (resolve_absolute cwd r Hr).
  destruct (String.eqb_spec (join_slash (resolve cwd r ++ split_slash m)) "") as [E|_]; [|done].
  exfalso. pose proof (resolve_ordinary cwd r) as HR.
  apply plain_Forall in Hm.
  pose proof (split_slash_nonnil m) as Hn.
  destruct (resolve cwd r) as [|x X].
  - destruct (split_slash m) as [|y Y]; [done|].
    inversion_clear Hm as [|?? Hy _]. apply ordinary_name_spec in Hy as [Hy _].
    by apply (join_slash_nonempty y Y).
  - inversion_clear HR as [|?? Hx _]. apply ordinary_name_spec in Hx as [Hx _].
    by apply (join_slash_nonempty x (X ++ split_slash m)).
Qed.

Lemma split_removelast_last (m : string) :
  split_slash m = removelast (split_slash m) ++ [List.last (split_slash m) ""].
Proof. apply app_removelast_last, split_slash_nonnil. Qed.

Lemma ordinary_app_end (x e : string) :
  ordinary_name x = true → contains "/"%char e = false → ordinary_name (x +:+ e) = true.
Proof.
  intros (H1 & H2 & H3 & H4)%ordinary_name_spec He.
  apply ordinary_name_spec. rewrite contains_app, H4, He.
  repeat split; try done.
  - by destruct x.
  - destruct x as [|c [|c' x]]; [done|destruct e; [by rewrite app_empty_r | done]|].
    by destruct x.
  - destruct x as [|c [|c' x]]; [done|..].
    + destruct e as [|d e]; [by rewrite app_empty_r|].
      intros [= -> ->]. cbn in H2. done.
    + destruct x; [destruct e; [by rewrite app_empty_r | done]|done].
Qed.

Lemma below_ordinary (m e : string) :
  plain m = true → contains "/"%char e = false → Forall ordinary (below m e).
Proof.
  intros Hm%plain_Forall He. unfold below.
  rewrite split_removelast_last in Hm. apply Forall_app in Hm as [Hi Hl].
  apply Forall_app. split; [done|]. inversion_clear Hl as [|?? Hx _].
  constructor; [|done]. by apply ordinary_app_end.
Qed.

(** The file a harness writes for the module [m]: the string it computes. *)
Lemma file_string (cwd r m e : string) :
  isAbsolute r = true → plain m = true →
  join [r; m] +:+ e = "/" +:+ join_slash (resolve cwd r ++ below m e).
Proof.
  intros Hr Hm. rewrite (join_plain cwd) by done.
  rewrite (split_removelast_last m) at 1. unfold below.
  rewrite !app_assoc. rewrite <- join_slash_app_end.
  by rewrite app_assoc_s.
Qed.

(** ... and the entry that string resolves to. *)
Lemma resolve_file (cwd r m e : string) :
  isAbsolute r = true → plain m = true → contains "/"%char e = false →
  resolve cwd (join [r; m] +:+ e) = resolve cwd r ++ below m e.
Proof.
  intros Hr Hm He. rewrite (file_string cwd) by done.
  apply resolve_root_string. apply Forall_app. split.
  - apply resolve_ordinary.
  - by apply below_ordinary.
Qed.

Lemma resolve_join (cwd r m : string) :
  isAbsolute r = true → plain m = true →
  resolve cwd (join [r; m]) = resolve cwd r ++ split_slash m.
Proof.
  intros Hr Hm. rewrite (join_plain cwd) by done.
  apply resolve_root_string. apply Forall_app. split.
  - apply resolve_ordinary.
  - by apply plain_Forall.
Qed.

Lemma join_absolute (cwd r m : string) :
  isAbsolute r = true → plain m = true → isAbsolute (join [r; m]) = true.
Proof. intros Hr Hm. by rewrite (join_plain cwd). Qed.

Lemma ends_with_slash_app_end (s e : string) :
  e ≠ "" → contains "/"%char e = false → ends_with_slash (s +:+ e) = false.
Proof.
  intros He Hs. rewrite ends_with_slash_app by done.
  by apply ends_with_slash_no_slash.
Qed.

Lemma join_no_trailing_slash (cwd r m : string) :
  isAbsolute r = true → plain m = true → ends_with_slash (join [r; m]) = false.
Proof.
  intros Hr Hm. rewrite (join_plain cwd) by done.
  pose proof Hm as Hall%plain_Forall.
  rewrite (split_removelast_last m) in Hall |- *.
  apply Forall_app in Hall as [_ Hl]. inversion_clear Hl as [|?? Hx _].
  apply ordinary_name_spec in Hx as (Hne & _ & _ & Hs).
  rewrite app_assoc.
  destruct (resolve cwd r ++ removelast (split_slash m)) as [|x X].
  - cbn [app]. by apply ends_with_slash_app_end.
  - rewrite join_slash_snoc by done.
    rewrite <- !app_assoc_s. by apply ends_with_slash_app_end.
Qed.

(** [dirname] of a slash followed by ordinary names drops the last name. *)
Lemma dirname_root_string (X : list string) (y : string) :
  Forall ordinary X → ordinary_name y = true →
  dirname ("/" +:+ join_slash (X ++ [y])) = "/" +:+ join_slash X.
Proof.
  intros HX (Hy & _ & _ & Hs)%ordinary_name_spec.
  change ("/" +:+ join_slash (X ++ [y])) with (String "/"%char (join_slash (X ++ [y]))).
  cbn [dirname].
  destruct X as [|x X].
  - cbn [app]. change (join_slash [y]) with y.
    rewrite strip_trailing_slashes_id by (by apply ends_with_slash_no_slash).
    by rewrite rsplit_none.
  - rewrite join_slash_snoc by done.
    rewrite strip_trailing_slashes_id; last first.
    { rewrite <- app_assoc_s, ends_with_slash_app by done.
      by apply ends_with_slash_no_slash. }
    change ("/" +:+ y) with (String "/"%char y).
    rewrite rsplit_last by done.
    inversion_clear HX as [|?? Hx _]. apply ordinary_name_spec in Hx as [Hx _].
    destruct (String.eqb_spec (join_slash (x :: X)) "") as [E|_].
    + by apply join_slash_nonempty in E.
    + by rewrite andb_false_r.
Qed.

Lemma dirname_file (cwd r m e : string) :
  isAbsolute r = true → plain m = true → contains "/"%char e = false →
  dirname (join [r; m] +:+ e)
  = "/" +:+ join_slash (resolve cwd r ++ removelast (split_slash m)).
Proof.
  intros Hr Hm He. rewrite (file_string cwd) by done.
  pose proof (below_ordinary m e Hm He) as Hb. unfold below in *.
  apply Forall_app in Hb as [Hi Hl]. inversion_clear Hl as [|?? Hx _].
  rewrite app_assoc. apply dirname_root_string; [|done].
  apply Forall_app. split; [apply resolve_ordinary | done].
Qed.

Lemma resolve_dirname_file (cwd r m e : string) :
  isAbsolute r = true → plain m = true → contains "/"%char e = false →
  resolve cwd (dirname (join [r; m] +:+ e))
  = resolve cwd r ++ removelast (split_slash m).
Proof.
  intros Hr Hm He. rewrite (dirname_file cwd) by done.
  apply resolve_root_string. apply Forall_app. split; [apply resolve_ordinary|].
  apply plain_Forall in Hm. rewrite split_removelast_last in Hm.
  by apply Forall_app in Hm as [? _].
Qed.

Lemma rsplit_some (c : ascii) (s a b : string) :
  rsplit c s = Some (a, b) → s = a +:+ String c b ∧ contains c b = false.
Proof.
  revert a b. induction s as [|x s IH]; intros a b; [done|].
  cbn [rsplit]. destruct (rsplit c s) as [[a' b']|] eqn:E.
  - intros [= <- <-]. destruct (IH a' b' eq_refl) as [-> Hb]. by split.
  - destruct (Ascii.eqb_spec x c) as [->|]; [|done].
    intros [= <- <-]. split; [done|].
    clear IH. induction s as [|y s IH]; [done|].
    cbn [rsplit] in E. cbn [contains].
    destruct (rsplit c s) as [[? ?]|]; [done|].
    destruct (Ascii.eqb y c); [done|]. by apply IH.
Qed.

Lemma rsplit_none_inv (c : ascii) (s : string) :
  rsplit c s = None → contains c s = false.
Proof.
  induction s as [|y s IH]; [done|].
  cbn [rsplit contains]. destruct (rsplit c s) as [[? ?]|]; [done|].
  destruct (Ascii.eqb y c); [done|]. by intros _; apply IH.
Qed.

Lemma last_part_no_slash (p : string) : contains "/"%char (last_part p) = false.
Proof.
  unfold last_part.
  destruct (rsplit "/"%char (strip_trailing_slashes p)) as [[a b]|] eqn:E.
  - by apply rsplit_some in E as [_ ?].
  - by apply rsplit_none_inv.
Qed.

(** [extname] never yields a slash. *)
Lemma extname_no_slash (p : string) : contains "/"%char (extname p) = false.
Proof.
  unfold extname. pose proof (last_part_no_slash p) as H.
  destruct (rsplit "."%char (last_part p)) as [[a b]|] eqn:E; [|done].
  apply rsplit_some in E as [E _]. rewrite E, contains_app in H.
  apply orb_false_elim in H as [_ H]. cbn [contains] in H.
  apply orb_false_elim in H as [_ H].
  destruct (String.eqb a ""); [done|].
  destruct (String.eqb a "." && String.eqb b ""); [done|].
  change ("." +:+ b) with (String "."%char b). cbn [contains]. by rewrite H.
Qed.

End PathFacts.

(* ===================================================================== *)
(** * The file tree: [mkdir -p], [rm -rf], directory listings             *)
(* ===================================================================== *)

Section FsFacts.
Import Fs.
Implicit Types (fs : gmap (list string) node) (p q : list string).















Lemma removelast_snoc {A} (l : list A) (x : A) : removelast (l ++ [x]) = l.
Proof. by rewrite removelast_app, app_nil_r. Qed.



End FsFacts.

(* ===================================================================== *)
(** * The harness primitives                                              *)
(* ===================================================================== *)

(** unfold the bookkeeping of a world *)
Ltac simpl_world := unfold log, set_files; cbn [cwd files calls fst snd].

Section Primitives.
Import Fs.
Implicit Types (fs : gmap (list string) node) (p q : list string) (w : world).

Lemma is_dir_snoc fs p (n : string) :
  is_dir fs (p ++ [n]) = match fs !! (p ++ [n]) with Some Dir => true | _ => false end.
Proof. unfold is_dir. by destruct p. Qed.





Lemma Tools_writeFile_calls (filePath contents : string) w :
  calls (Tools.writeFile filePath contents w).2
  = calls w ++ [MkdirP (Path.dirname filePath); WriteFile filePath contents]
  ∧ cwd (Tools.writeFile filePath contents w).2 = cwd w.
Proof.
  unfold Tools.writeFile, Tools.createFolder, mbind, js_bind, bind,
    shell_mkdir_p, writeFileSync, log, set_files.
  cbn [cwd files calls].
  destruct (write_result _ _ _ _); cbn [snd calls cwd]; by rewrite <- app_assoc.
Qed.






End Primitives.




(* ===================================================================== *)
(** * The fixture roots                                                   *)
(* ===================================================================== *)

Section TestFolders.
Import Fs.

Lemma plain_README : Path.plain "README" = true.
Proof. reflexivity. Qed.

Lemma resolve_join_name (cwd r name : string) :
  Path.isAbsolute r = true → Path.ordinary_name name = true →
  Path.resolve cwd (Path.join [r; name]) = Path.resolve cwd r ++ [name]
  ∧ Path.resolve cwd (Path.dirname (Path.join [r; name])) = Path.resolve cwd r
  ∧ Path.isAbsolute (Path.join [r; name]) = true
  ∧ Str.ends_with_slash (Path.join [r; name]) = false.
Proof.
  intros Hr Hn.
  assert (Hs : Str.split_slash name = [name]).
  { apply split_slash_no_slash. apply ordinary_name_spec in Hn. tauto. }
  assert (Hp : Path.plain name = true).
  { unfold Path.plain. rewrite Hs. cbn [forallb]. by rewrite Hn. }
  split; [|split; [|split]].
  - rewrite resolve_join by done. by rewrite Hs.
  - rewrite <- (app_empty_r (Path.join [r; name])).
    rewrite resolve_dirname_file by done. rewrite Hs. cbn [removelast].
    by rewrite app_nil_r.
  - by apply (join_absolute cwd).
  - by apply (join_no_trailing_slash cwd).
Qed.






End TestFolders.




(* ===================================================================== *)
(** * One generated module                                                *)
(* ===================================================================== *)

Section OneModule.
Import Fs.

Lemma length_zero_iff (s : string) : (String.length s =? 0) = true ↔ s = "".
Proof. destruct s; cbn; split; (done || discriminate). Qed.

Lemma extName_cases (m : string) :
  (Path.extname m = "" ∧ Tools.extName m = ".js")
  ∨ (Path.extname m ≠ "" ∧ Tools.extName m = Path.extname m).
Proof.
  unfold Tools.extName. destruct (Path.extname m) as [|c e]; [by left|by right].
Qed.

Lemma extName_no_slash (m : string) : Str.contains "/"%char (Tools.extName m) = false.
Proof.
  destruct (extName_cases m) as [[_ ->]|[_ ->]]; [reflexivity|apply extname_no_slash].
Qed.


Lemma Tools_createModule_calls (r m c : string) (w : world) :
  calls (Tools.__createModule r m c w).2
  = calls w ++ [MkdirP (Path.dirname (Tools.fileName r m));
                MkdirP (Path.dirname (Tools.fileName r m));
                WriteFile (Tools.fileName r m) c].
Proof.
  unfold Tools.__createModule, mbind, js_bind, bind.
  unfold Tools.createFolder at 1, shell_mkdir_p at 1.
  destruct (Tools_writeFile_calls (Tools.fileName r m) c
              (set_files (mkdir_p (files (log (MkdirP (Path.dirname (Tools.fileName r m))) w))
                 (Path.resolve (cwd (log (MkdirP (Path.dirname (Tools.fileName r m))) w))
                    (Path.dirname (Tools.fileName r m))))
                 (log (MkdirP (Path.dirname (Tools.fileName r m))) w))) as [Hc _].
  destruct (Tools.writeFile _ _ _) as [[[]|e] w']; cbn [snd] in *;
    rewrite Hc; simpl_world; by rewrite <- app_assoc.
Qed.


Lemma IndexSync_createModule_calls (r m c : string) (w : world) :
  calls (IndexSync.__createModule r m c w).2
  = calls w ++ [MkdirP (Path.dirname (IndexSync.fileName r m));
                WriteFile (IndexSync.fileName r m) c].
Proof.
  unfold IndexSync.__createModule, mbind, js_bind, bind.
  unfold IndexSync.createFolder, shell_mkdir_p, IndexSync.writeFile, writeFileSync.
  simpl_world. destruct (write_result _ _ _ _); simpl_world; by rewrite <- app_assoc.
Qed.


Lemma IndexAsync_createModule_calls (r m c : string) (w : world) :
  let full := [MkdirP (Path.dirname (IndexAsync.fileName r m));
               WriteFile (IndexAsync.fileName r m) c] in
  let res := IndexAsync.__createModule r m c w in
  ∃ l, calls res.2 = calls w ++ l
       ∧ l `prefix_of` full
       ∧ (res.1 = Normal (Fulfilled ()) → l = full)
       ∧ (∃ s, res.1 = Normal s).
Proof.
  intros full res. subst res.
  unfold IndexAsync.__createModule, Promise.then_.
  unfold IndexAsync.createFolder, mkdirpAsync, IndexAsync.writeFile, writeFileAsync.
  simpl_world. destruct (blocked _ _); simpl_world.
  - exists [MkdirP (Path.dirname (IndexAsync.fileName r m))].
    repeat split; [by eexists | discriminate | eauto].
  - destruct (write_result _ _ _ _); simpl_world;
      exists full; rewrite <- app_assoc; repeat split; eauto.
Qed.


End OneModule.

(* ===================================================================== *)
(** * Where a module file lands                                           *)
(* ===================================================================== *)

Lemma below_nonnil (m e : string) : Path.below m e ≠ [].
Proof. unfold Path.below. by destruct (removelast (Str.split_slash m)). Qed.

Lemma removelast_below (m e : string) :
  removelast (Path.below m e) = removelast (Str.split_slash m).
Proof. unfold Path.below. apply removelast_snoc. Qed.

(** C2 (as amended).  No harness checks where a module name leads: the
    file is written at [path.join(r, m)] plus the extension.  For an
    absolute target folder [r] and a plain name [m] (ordinary names
    separated by single slashes: no empty, [.] or [..] segment) that path
    resolves strictly inside [r], in each of the three harnesses, its
    folder is [r] or lies inside [r], and the only requests issued are the
    [mkdir -p] of that folder and the write of that file.  (Names outside
    that form are not covered: a [..] segment or the empty name leads
    outside [r].) *)
Theorem module_file_inside_root (r m : string) (w : world) :
  Path.isAbsolute r = true → Path.plain m = true →
  let R := Path.resolve (cwd w) r in
  (∀ e, Path.below m e ≠ []
        ∧ removelast (Path.below m e) = removelast (Str.split_slash m))
  ∧ Path.resolve (cwd w) (Tools.fileName r m) = R ++ Path.below m (Tools.extName m)
  ∧ Path.resolve (cwd w) (Path.dirname (Tools.fileName r m))
    = R ++ removelast (Str.split_slash m)
  ∧ Path.resolve (cwd w) (IndexSync.fileName r m) = R ++ Path.below m ".js"
  ∧ Path.resolve (cwd w) (Path.dirname (IndexSync.fileName r m))
    = R ++ removelast (Str.split_slash m)
  ∧ Path.resolve (cwd w) (IndexAsync.fileName r m) = R ++ Path.below m ".js"
  ∧ Path.resolve (cwd w) (Path.dirname (IndexAsync.fileName r m))
    = R ++ removelast (Str.split_slash m)
  ∧ (∀ c, calls (Tools.__createModule r m c w).2
          = calls w ++ [MkdirP (Path.dirname (Tools.fileName r m));
                        MkdirP (Path.dirname (Tools.fileName r m));
                        WriteFile (Tools.fileName r m) c])
  ∧ (∀ c, calls (IndexSync.__createModule r m c w).2
          = calls w ++ [MkdirP (Path.dirname (IndexSync.fileName r m));
                        WriteFile (IndexSync.fileName r m) c])
  ∧ (∀ c, ∃ l, calls (IndexAsync.__createModule r m c w).2 = calls w ++ l
               ∧ l `prefix_of` [MkdirP (Path.dirname (IndexAsync.fileName r m));
                                WriteFile (IndexAsync.fileName r m) c]).
Proof.
  intros Hr Hm R. pose proof (extName_no_slash m) as He.
  split; [intros e; split; [apply below_nonnil | apply removelast_below]|].
  unfold Tools.fileName, IndexSync.fileName, IndexAsync.fileName.
  rewrite !resolve_file, !resolve_dirname_file by done.
  repeat split.
  - intros c. apply Tools_createModule_calls.
  - intros c. apply IndexSync_createModule_calls.
  - intros c. destruct (IndexAsync_createModule_calls r m c w) as (l & H1 & H2 & _).
    by exists l.
Qed.

Lemma module_file_inside_root_witness :
  Path.resolve "/home/u/proj" (Tools.fileName "/r" "a/x") = ["r"] ++ ["a"; "x.js"]
  ∧ Path.resolve "/home/u/proj" (Path.dirname (Tools.fileName "/r" "a/x")) = ["r"] ++ ["a"]
  ∧ Path.resolve "/home/u/proj" (IndexSync.fileName "/r" "a/x") = ["r"] ++ ["a"; "x.js"].
Proof.
  destruct (module_file_inside_root "/r" "a/x" empty_world eq_refl eq_refl)
    as (_ & H1 & H2 & H3 & _).
  exact (conj H1 (conj H2 H3)).
Defined.

(** C2, as stated, fails: the name [../x] under the root [/r] is written
    to [/x.js], which is not inside [/r]; the empty name is written to
    [/r.js], beside [/r]. *)
Lemma createModules_escapes_root :
  let res := Tools.createModules "/r" (Js.ModulesObject [("../x", "1")]) "app" empty_world in
  res.1 = Normal ()
  ∧ Path.resolve "/home/u/proj" (Tools.fileName "/r" "../x") = ["x.js"]
  ∧ files res.2 !! ["x.js"] = Some (File "1")
  ∧ ¬ Path.resolve "/home/u/proj" "/r" `prefix_of` ["x.js"]
  ∧ Path.resolve "/home/u/proj" (Tools.fileName "/r" "") = ["r.js"].
Proof.
  vm_compute. repeat split; try reflexivity.
  intros [k Hk]. discriminate Hk.
Qed.

Example join_absolute_name : Path.join ["/r"; "/etc/passwd"] = "/r/etc/passwd".
Proof. reflexivity. Qed.

(* ===================================================================== *)
(** * The extension of a module file                                      *)
(* ===================================================================== *)





Example fileName_plain : Tools.fileName "/r" "a/x" = "/r/a/x.js".
Proof. reflexivity. Qed.

(* ===================================================================== *)
(** * Objects: the order of enumeration                                   *)
(* ===================================================================== *)

Section Objects.
Import Js.





End Objects.

(* ===================================================================== *)
(** * A batch of modules, one after the other                             *)
(* ===================================================================== *)

Section Batch.
Import Fs.






End Batch.

(* ===================================================================== *)
(** * Two modules that share a folder                                     *)
(* ===================================================================== *)

Section SharedFolder.
Import Fs.





End SharedFolder.




(* ===================================================================== *)
(** * Tearing the fixtures down                                           *)
(* ===================================================================== *)

Section Sweep.
Import Fs.
Implicit Types (fs : gmap (list string) node) (p q : list string) (w : world).










Lemma prefix_snoc_cases {A} (X l : list A) (n : A) :
  X `prefix_of` l ++ [n] → X = l ++ [n] ∨ X `prefix_of` l.
Proof.
  intros [k Hk]. destruct k as [|z k] using rev_ind.
  - left. by rewrite app_nil_r in Hk.
  - right. rewrite app_assoc in Hk. apply app_inj_tail in Hk as [-> _]. by exists k.
Qed.






End Sweep.




(* ===================================================================== *)
(** * Further properties of the fixture builders                          *)
(* ===================================================================== *)





(* ===================================================================== *)
(** * Single files: existence checks and removal                          *)
(* ===================================================================== *)

Section SingleFiles.
Import Fs.
Implicit Types (fs : gmap (list string) node) (p q : list string) (w : world).


Lemma access_result_file fs p (path c : string) :
  path ≠ "" → Str.ends_with_slash path = false → fs !! p = Some (File c) →
  access_result fs p path = None.
Proof.
  intros Hne Hs Hp. unfold access_result.
  apply String.eqb_neq in Hne. rewrite Hne, Hp, Hs. by destruct (bool_decide _).
Qed.

Lemma access_result_dir fs p (path : string) :
  path ≠ "" → is_dir fs p = true → access_result fs p path = None.
Proof.
  intros Hne Hd. unfold access_result, is_dir in *.
  apply String.eqb_neq in Hne. rewrite Hne.
  destruct p as [|x p]; [done|].
  rewrite bool_decide_eq_false_2 by done.
  by destruct (fs !! (x :: p)) as [[]|].
Qed.

Lemma access_result_missing fs p (path : string) :
  p ≠ [] → fs !! p = None → is_Some (access_result fs p path).
Proof.
  intros Hp Hn. unfold access_result. destruct (String.eqb path ""); [by eexists|].
  rewrite Hn, bool_decide_eq_false_2 by done. by eexists.
Qed.

Lemma unlink_result_file fs p (path c : string) :
  path ≠ "" → p ≠ [] → Str.ends_with_slash path = false → fs !! p = Some (File c) →
  unlink_result fs p path = inr (delete p fs).
Proof.
  intros Hne Hnil Hs Hp. unfold unlink_result.
  apply String.eqb_neq in Hne. rewrite Hne, Hp, Hs.
  by rewrite bool_decide_eq_false_2.
Qed.

Lemma unlink_result_not_file fs p (path : string) :
  is_file fs p = false → ∃ e, unlink_result fs p path = inl e.
Proof.
  unfold unlink_result, is_file. intros H.
  destruct (String.eqb path ""); [by eexists|].
  destruct (bool_decide (p = [])); [by eexists|].
  destruct (fs !! p) as [[|c]|]; [by eexists | done | by eexists].
Qed.




End SingleFiles.



Example deleteFile_samples :
  (Tools.deleteFile "/home/u/proj/test/data/src/README" sample_world).1 = Normal ()
  ∧ files (Tools.deleteFile "/home/u/proj/test/data/src/README" sample_world).2
    !! ["home"; "u"; "proj"; "test"; "data"; "src"; "README"] = None
  ∧ Tools.deleteFile "test/data/src" sample_world
    = (Throw (Fs.fs_error "EISDIR" "unlink" "test/data/src"), sample_world)
  ∧ Tools.deleteFile "test/data/src/README/x" sample_world
    = (Throw (Fs.fs_error "ENOTDIR" "unlink" "test/data/src/README/x"), sample_world)
  ∧ Tools.deleteFile "nope" sample_world
    = (Throw (Fs.fs_error "ENOENT" "unlink" "nope"), sample_world)
  ∧ (Tools.fileExists "test/data/src/README" sample_world).1 = Normal true
  ∧ (Tools.fileExists "test/data/src/README/" sample_world).1 = Normal false
  ∧ (Tools.fileExists "test/data/src/README/x" sample_world).1 = Normal false.
Proof. vm_compute. repeat split; reflexivity. Qed.





(* ===================================================================== *)
(** * The test package.json                                               *)
(* ===================================================================== *)

Section PackageJson.
Import Fs.
Implicit Types (fs : gmap (list string) node) (p q : list string) (w : world).

Lemma rev_tail_removelast {A} (l : list A) : rev (tail l) = removelast (rev l).
Proof. destruct l as [|x l]; [done|]. cbn [tail rev]. by rewrite removelast_snoc. Qed.

Lemma Forall_removelast {A} (P : A → Prop) (l : list A) :
  Forall P l → Forall P (removelast l).
Proof.
  destruct l as [|x l] using rev_ind; [done|].
  rewrite removelast_snoc. by intros [? _]%Forall_app.
Qed.

(** [path.join(r, '..', name)]: the file [name] beside the folder [r]. *)
Lemma join_parent (cwd r name : string) :
  Path.isAbsolute r = true → Path.ordinary_name name = true →
  Path.join [r; ".."; name]
  = "/" +:+ Str.join_slash (removelast (Path.resolve cwd r) ++ [name]).
Proof.
  intros Hr Hn. pose proof Hn as (Hne & _ & _ & Hsl)%ordinary_name_spec.
  assert (Hr' : r ≠ "") by (by intros ->).
  unfold Path.join. rewrite !filter_cons_True by done. rewrite filter_nil.
  change (Str.join_slash [r; ".."; name]) with (r +:+ "/" +:+ (".." +:+ "/" +:+ name)).
  unfold Path.normalize.
  assert (Habs : Path.isAbsolute (r +:+ "/" +:+ (".." +:+ "/" +:+ name)) = true)
    by (by destruct r).
  rewrite Habs. cbn [negb].
  destruct (String.eqb_spec (r +:+ "/" +:+ (".." +:+ "/" +:+ name)) "") as [E|_].
  { by apply app_eq_empty in E as [? _]. }
  replace (Str.ends_with_slash (r +:+ "/" +:+ (".." +:+ "/" +:+ name))) with false; last first.
  { symmetry. rewrite <- !app_assoc_s. by apply ends_with_slash_app_end. }
  rewrite !split_slash_app_slash, (split_slash_no_slash name Hsl).
  change (Str.split_slash "..") with [".."].
  rewrite (resolve_absolute cwd r Hr).
  unfold Path.norm_segs. rewrite !fold_left_app. cbn [fold_left].
  set (acc := fold_left (Path.norm_step false) (Str.split_slash r) []).
  assert (Hacc : Forall (λ n, Path.ordinary_name n = true) acc).
  { apply fold_norm_keeps_ordinary; [apply split_slash_elems | done]. }
  assert (Hup : Path.norm_step false acc ".." = tail acc).
  { unfold Path.norm_step. cbn [String.eqb orb]. destruct acc as [|top rest]; [done|].
    inversion_clear Hacc as [|?? Htop _].
    apply ordinary_name_spec in Htop as (_ & _ & Htop & _).
    apply String.eqb_neq in Htop. by rewrite Htop. }
  rewrite Hup, norm_step_ordinary by done. cbn [rev].
  rewrite rev_tail_removelast.
  destruct (String.eqb_spec (Str.join_slash (removelast (rev acc) ++ [name])) "") as [E|_];
    [|done].
  exfalso. assert (Hall : Forall (λ n, Path.ordinary_name n = true) (removelast (rev acc))).
  { by apply Forall_removelast, Forall_rev. }
  destruct (removelast (rev acc)) as [|x X].
  - by apply (join_slash_nonempty name []) in E.
  - inversion_clear Hall as [|?? Hx _]. apply ordinary_name_spec in Hx as [Hx _].
    by apply (join_slash_nonempty x (X ++ [name])) in E.
Qed.

(** ... and what that path and its folder resolve to. *)
Lemma resolve_parent_file (cwd r name : string) :
  Path.isAbsolute r = true → Path.ordinary_name name = true →
  let fp := Path.join [r; ".."; name] in
  Path.resolve cwd fp = removelast (Path.resolve cwd r) ++ [name]
  ∧ Path.resolve cwd (Path.dirname fp) = removelast (Path.resolve cwd r)
  ∧ Str.ends_with_slash fp = false
  ∧ fp ≠ "".
Proof.
  intros Hr Hn fp. subst fp. rewrite (join_parent cwd) by done.
  assert (Hall : Forall (λ n, Path.ordinary_name n = true) (removelast (Path.resolve cwd r))).
  { apply Forall_removelast, resolve_ordinary. }
  pose proof Hn as (Hne & _ & _ & Hsl)%ordinary_name_spec.
  split; [|split; [|split]].
  - apply resolve_root_string. apply Forall_app. split; [done|]. by constructor.
  - rewrite dirname_root_string by done. by apply resolve_root_string.
  - destruct (removelast (Path.resolve cwd r)) as [|x X].
    + cbn [app]. by apply ends_with_slash_app_end.
    + rewrite join_slash_snoc by done. rewrite <- !app_assoc_s.
      by apply ends_with_slash_app_end.
  - done.
Qed.

Lemma ordinary_package_json : Path.ordinary_name "package.json" = true.
Proof. reflexivity. Qed.


End PackageJson.







(** [deletePackageJson()] of the promise-returning harness looks before it
    unlinks: where nothing bears the name [package.json] beside the
    application root the promise is fulfilled and nothing changes; where a
    regular file does, it is removed and the promise is fulfilled, every
    other entry being as before; where a directory does, the [unlink]
    fails, the promise is rejected and nothing changes. *)
Theorem deletePackageJson_async (t : IndexAsync.testUtils) (w : world) :
  Path.isAbsolute (IndexAsync.appFolder t) = true →
  let F := removelast (Path.resolve (cwd w) (IndexAsync.appFolder t)) ++ ["package.json"] in
  let r := IndexAsync.deletePackageJson t w in
  (files w !! F = None → r = (Normal (Fulfilled ()), w))
  ∧ (∀ c, files w !! F = Some (File c) →
          r.1 = Normal (Fulfilled ())
          ∧ files r.2 = delete F (files w))
  ∧ (files w !! F = Some Dir → ∃ e, r = (Normal (Rejected e), w)).
Proof.
  intros Habs F r. subst r.
  destruct (resolve_parent_file (cwd w) (IndexAsync.appFolder t) "package.json" Habs eq_refl)
    as (Hf & _ & Hs & Hne). fold F in Hf.
  assert (HF : F ≠ []) by (by apply not_eq_sym, app_cons_not_nil).
  unfold IndexAsync.deletePackageJson, Promise.then_, Fs.existsAsync, Fs.unlinkAsync.
  rewrite !Hf. repeat split.
  - intros Hnone. by destruct (access_result_missing (files w) F
                                (Path.join [IndexAsync.appFolder t; ".."; "package.json"])
                                HF Hnone) as [e ->].
  - rewrite (access_result_file _ _ _ c) by done. rewrite Hf.
    by rewrite (unlink_result_file _ _ _ c).
  - rewrite (access_result_file _ _ _ c) by done. rewrite Hf.
    by rewrite (unlink_result_file _ _ _ c).
  - intros Hdir. rewrite access_result_dir;
      [|done|unfold F in *; by rewrite is_dir_snoc, Hdir].
    rewrite Hf. destruct (unlink_result_not_file (files w) F
                (Path.join [IndexAsync.appFolder t; ".."; "package.json"])) as [e ->].
    { unfold Fs.is_file. by rewrite Hdir. }
    by exists e.
Qed.

Lemma deletePackageJson_async_witness :
  IndexAsync.deletePackageJson
    (IndexAsync.MkTestUtils "/home/u/proj/test/data/app" "/home/u/proj/node_modules")
    sample_world
  = (Normal (Fulfilled ()), sample_world).
Proof.
  exact (proj1 (deletePackageJson_async
                  (IndexAsync.MkTestUtils "/home/u/proj/test/data/app"
                     "/home/u/proj/node_modules")
                  sample_world eq_refl) eq_refl).
Defined.

(* ===================================================================== *)
(** * The folders of a harness                                            *)
(* ===================================================================== *)

Section Folders.
Import Fs.
Implicit Types (fs : gmap (list string) node) (p q : list string) (w : world).

Local Abbreviation ordinary := (λ n : string, Path.ordinary_name n = true).

(** [path.join(r, 'test', 'data')] is [path.join(r, 'test/data')]. *)
Lemma join_test_data (r : string) :
  Path.join [r; "test"; "data"] = Path.join [r; "test/data"].
Proof.
  unfold Path.join. destruct (decide (r = "")) as [->|Hr]; [reflexivity|].
  rewrite !(filter_cons_True _ r) by done. reflexivity.
Qed.

Lemma norm_segs_snoc_empty (b : bool) (l : list string) :
  Path.norm_segs b (l ++ [""]) = Path.norm_segs b l.
Proof. unfold Path.norm_segs. by rewrite fold_left_app. Qed.

Lemma join_slash_ordinary_nonempty (X : list string) :
  X ≠ [] → Forall ordinary X → Str.join_slash X ≠ "".
Proof.
  intros Hne HX. destruct X as [|x X]; [done|].
  inversion_clear HX as [|?? Hx _]. apply ordinary_name_spec in Hx as [Hx _].
  by apply join_slash_nonempty.
Qed.

Lemma join_slash_ordinary_empty (X : list string) :
  Forall ordinary X → Str.join_slash X = "" → X = [].
Proof.
  intros HX E. destruct X as [|x X]; [done|].
  by apply join_slash_ordinary_nonempty in E.
Qed.

(** Normalizing an absolute path keeps the entry it names, and the result
    is absolute. *)
Lemma normalize_absolute (cwd d : string) :
  Path.isAbsolute d = true →
  Path.isAbsolute (Path.normalize d) = true
  ∧ Path.resolve cwd (Path.normalize d) = Path.resolve cwd d.
Proof.
  intros Hd. assert (Hne : d ≠ "") by (by intros ->).
  rewrite (resolve_absolute cwd d Hd).
  unfold Path.normalize. apply String.eqb_neq in Hne. rewrite Hne, Hd. cbn [negb].
  set (X := Path.norm_segs false (Str.split_slash d)).
  assert (HX : Forall ordinary X) by apply norm_segs_ordinary, split_slash_elems.
  destruct (String.eqb_spec (Str.join_slash X) "") as [E|E].
  { by rewrite (join_slash_ordinary_empty X HX E). }
  destruct (Str.ends_with_slash d).
  - split; [done|].
    change ("/" +:+ (Str.join_slash X +:+ "/"))
      with (("/" +:+ Str.join_slash X) +:+ "/" +:+ "").
    rewrite resolve_absolute by done.
    rewrite split_slash_app_slash. change (Str.split_slash "") with [""].
    rewrite norm_segs_snoc_empty, <- (resolve_absolute cwd) by done.
    by apply resolve_root_string.
  - split; [done|]. by apply resolve_root_string.
Qed.

(** A folder joined to an absolute test data folder. *)
Lemma join_data_folder (cwd T name : string) :
  Path.isAbsolute T = true → Path.ordinary_name name = true →
  Path.isAbsolute (Path.join [T; name]) = true
  ∧ Path.resolve cwd (Path.join [T; name]) = Path.resolve cwd T ++ [name].
Proof.
  intros HT Hn. destruct (resolve_join_name cwd T name HT Hn) as (H1 & _ & H3 & _).
  by split.
Qed.

(** The test data folder the harnesses assume: [<cwd>/test/data]. *)
Lemma default_data_folder (cwd : string) :
  Path.isAbsolute cwd = true →
  let T := Path.normalize (Path.join [cwd; "test"; "data"]) in
  Path.isAbsolute T = true
  ∧ Path.resolve cwd T = Path.resolve cwd cwd ++ ["test"; "data"].
Proof.
  intros Hc T. subst T. rewrite join_test_data.
  assert (Hp : Path.plain "test/data" = true) by reflexivity.
  destruct (normalize_absolute cwd (Path.join [cwd; "test/data"])) as [H1 H2].
  { by apply (join_absolute cwd). }
  split; [done|]. rewrite H2. by rewrite resolve_join.
Qed.

End Folders.

(** The folders [getTools] settles on (second listing of part_000), for a
    process whose working directory is an absolute path and a [dataFolder]
    option that is left out or absolute.  The test data folder is the
    [dataFolder] option, normalized, or [<cwd>/test/data].  Each of
    [appFolder], [publicFolder] and [pluginsFolder] is the option of that
    name, taken as it is given, when the option is a non-empty string;
    left out or empty, the folder is [<data>/src], [<data>/public] and
    [<cwd>/node_modules].  The call reads nothing but the working
    directory and changes nothing. *)
Theorem getTools_folders (o : Tools.options) (w : world) :
  Path.isAbsolute (cwd w) = true →
  (∀ d, Tools.dataFolder o = Some d → Path.isAbsolute d = true) →
  let C := Path.resolve (cwd w) (cwd w) in
  let D := match Tools.dataFolder o with
           | Some d => Path.resolve (cwd w) d
           | None => C ++ ["test"; "data"]
           end in
  ∃ t, Tools.getTools o w = (Normal t, w)
       ∧ ((Tools.opt_appFolder o = None ∨ Tools.opt_appFolder o = Some "") →
          Path.isAbsolute (Tools.appFolder t) = true
          ∧ Path.resolve (cwd w) (Tools.appFolder t) = D ++ ["src"])
       ∧ (∀ s, Tools.opt_appFolder o = Some s → s ≠ "" → Tools.appFolder t = s)
       ∧ ((Tools.opt_publicFolder o = None ∨ Tools.opt_publicFolder o = Some "") →
          Path.isAbsolute (Tools.publicFolder t) = true
          ∧ Path.resolve (cwd w) (Tools.publicFolder t) = D ++ ["public"])
       ∧ (∀ s, Tools.opt_publicFolder o = Some s → s ≠ "" → Tools.publicFolder t = s)
       ∧ ((Tools.opt_pluginsFolder o = None ∨ Tools.opt_pluginsFolder o = Some "") →
          Path.isAbsolute (Tools.pluginsFolder t) = true
          ∧ Path.resolve (cwd w) (Tools.pluginsFolder t) = C ++ ["node_modules"])
       ∧ (∀ s, Tools.opt_pluginsFolder o = Some s → s ≠ "" → Tools.pluginsFolder t = s).
Proof.
  intros Hc Hd C D.
  set (T := Path.normalize
              (default (Path.join [cwd w; "test"; "data"]) (Tools.dataFolder o))).
  assert (HT : Path.isAbsolute T = true ∧ Path.resolve (cwd w) T = D).
  { subst T D. destruct (Tools.dataFolder o) as [d|]; cbn [default].
    - apply normalize_absolute. by apply Hd.
    - by apply default_data_folder. }
  destruct HT as [HTa HTr].
  eexists. split; [reflexivity|]. cbn [Tools.appFolder Tools.publicFolder Tools.pluginsFolder].
  fold T.
  assert (Hor : ∀ x d', (x = None ∨ x = Some "") → Text.or_else x d' = d').
  { by intros x d' [->| ->]. }
  assert (Hgiven : ∀ x d' s, x = Some s → s ≠ "" → Text.or_else x d' = s).
  { intros x d' s -> Hs. unfold Text.or_else. apply String.eqb_neq in Hs. by rewrite Hs. }
  repeat split.
  - rewrite Hor by done. by apply (join_data_folder (cwd w)).
  - rewrite Hor by done. rewrite <- HTr. by apply join_data_folder.
  - intros s. apply Hgiven.
  - rewrite Hor by done. by apply (join_data_folder (cwd w)).
  - rewrite Hor by done. rewrite <- HTr. by apply join_data_folder.
  - intros s. apply Hgiven.
  - rewrite Hor by done. by apply (join_data_folder (cwd w)).
  - rewrite Hor by done. by apply join_data_folder.
  - intros s. apply Hgiven.
Qed.

Lemma getTools_folders_witness :
  ∃ t, Tools.getTools (Tools.Options None None (Some "/srv/pub") None) empty_world
       = (Normal t, empty_world)
       ∧ Path.resolve "/home/u/proj" (Tools.appFolder t)
         = ["home"; "u"; "proj"; "test"; "data"; "src"]
       ∧ Tools.publicFolder t = "/srv/pub"
       ∧ Path.resolve "/home/u/proj" (Tools.pluginsFolder t)
         = ["home"; "u"; "proj"; "node_modules"].
Proof.
  destruct (getTools_folders (Tools.Options None None (Some "/srv/pub") None) empty_world
              eq_refl) as (t & Ht & Happ & _ & _ & Hpub & Hpl & _).
  { intros d [=]. }
  exists t. split; [exact Ht|]. split; [exact (proj2 (Happ (or_introl eq_refl)))|].
  split; [apply Hpub; [reflexivity|discriminate]|].
  exact (proj2 (Hpl (or_introl eq_refl))).
Defined.

(** The harnesses without folder options: [getTools] of the first listing
    of part_000 and the two constructors of index.js put the application
    root at [<data>/app] and the plugins at [<cwd>/node_modules], where
    [<data>] is the data folder given (absolute) or [<cwd>/test/data].
    An empty data folder string is taken as left out by the
    promise-returning constructor ([if (!_dataFolder)]), whereas the two
    others normalize it to [.] and settle on the relative folder [app]. *)
Theorem create_folders (dataFolder : option string) (w : world) :
  Path.isAbsolute (cwd w) = true →
  (∀ d, dataFolder = Some d → Path.isAbsolute d = true) →
  let C := Path.resolve (cwd w) (cwd w) in
  let D := match dataFolder with
           | Some d => Path.resolve (cwd w) d
           | None => C ++ ["test"; "data"]
           end in
  (∃ t, IndexSync.create dataFolder w = (Normal t, w)
        ∧ Path.resolve (cwd w) (IndexSync.appFolder t) = D ++ ["app"]
        ∧ Path.resolve (cwd w) (IndexSync.pluginsFolder t) = C ++ ["node_modules"])
  ∧ (∃ t, IndexAsync.create dataFolder w = (Normal t, w)
          ∧ Path.resolve (cwd w) (IndexAsync.appFolder t) = D ++ ["app"]
          ∧ Path.resolve (cwd w) (IndexAsync.pluginsFolder t) = C ++ ["node_modules"])
  ∧ (∃ t, Tools.getTools_app dataFolder w = (Normal t, w)
          ∧ Path.resolve (cwd w) (Tools.appFolder t) = D ++ ["app"]
          ∧ Path.resolve (cwd w) (Tools.publicFolder t) = D ++ ["public"]
          ∧ Path.resolve (cwd w) (Tools.pluginsFolder t) = C ++ ["node_modules"])
  ∧ IndexAsync.create (Some "") w = IndexAsync.create None w
  ∧ (∃ t, IndexSync.create (Some "") w = (Normal t, w) ∧ IndexSync.appFolder t = "app")
  ∧ (∃ t, Tools.getTools_app (Some "") w = (Normal t, w) ∧ Tools.appFolder t = "app").
Proof.
  intros Hc Hd C D.
  set (T := Path.normalize (default (Path.join [cwd w; "test"; "data"]) dataFolder)).
  assert (HT : Path.isAbsolute T = true ∧ Path.resolve (cwd w) T = D).
  { subst T D. destruct dataFolder as [d|]; cbn [default].
    - apply normalize_absolute. by apply Hd.
    - by apply default_data_folder. }
  destruct HT as [HTa HTr].
  assert (HT' : Path.normalize (Text.or_else dataFolder (Path.join [cwd w; "test"; "data"]))
                = T).
  { subst T. destruct dataFolder as [d|]; [|done]. cbn [Text.or_else default].
    destruct (String.eqb_spec d "") as [->|]; [|done]. by specialize (Hd "" eq_refl). }
  split; [|split; [|split; [|split; [|split]]]].
  - eexists. split; [reflexivity|]. cbn [IndexSync.appFolder IndexSync.pluginsFolder].
    fold T. split.
    + rewrite <- HTr. by apply join_data_folder.
    + by apply join_data_folder.
  - eexists. split; [reflexivity|]. cbn [IndexAsync.appFolder IndexAsync.pluginsFolder].
    rewrite HT'. split.
    + rewrite <- HTr. by apply join_data_folder.
    + by apply join_data_folder.
  - eexists. split; [reflexivity|].
    cbn [Tools.appFolder Tools.publicFolder Tools.pluginsFolder]. fold T.
    split; [|split].
    + rewrite <- HTr. by apply join_data_folder.
    + rewrite <- HTr. by apply join_data_folder.
    + by apply join_data_folder.
  - reflexivity.
  - eexists. split; reflexivity.
  - eexists. split; reflexivity.
Qed.

Lemma create_folders_witness :
  ∃ t, IndexSync.create (Some "/srv/data/") empty_world = (Normal t, empty_world)
       ∧ Path.resolve "/home/u/proj" (IndexSync.appFolder t) = ["srv"; "data"] ++ ["app"].
Proof.
  destruct (create_folders (Some "/srv/data/") empty_world eq_refl) as [(t & H1 & H2 & _) _].
  { by intros d [= <-]. }
  exists t. exact (conj H1 H2).
Defined.

(* ===================================================================== *)
(** * What tearing down leaves alone                                      *)
(* ===================================================================== *)

Section Frame.
Import Fs.
Implicit Types (fs : gmap (list string) node) (p q : list string) (w : world).


End Frame.






(* ===================================================================== *)
(** * The scaffold of a test plugin                                       *)
(* ===================================================================== *)

Section Plugins.
Import Fs.
Implicit Types (fs : gmap (list string) node) (p q : list string) (w : world).

Local Abbreviation ordinary := (λ n : string, Path.ordinary_name n = true).






Lemma prefix_snoc_strict {A} (q N : list A) (x : A) :
  q `prefix_of` N ++ [x] → q ≠ N ++ [x] → q `prefix_of` N.
Proof. by intros [->|?]%prefix_snoc_cases. Qed.


End Plugins.

Section PluginLife.
Import Fs.
Implicit Types (fs : gmap (list string) node) (p q : list string) (w : world).



End PluginLife.







(* ===================================================================== *)
(** * A whole batch of modules                                            *)
(* ===================================================================== *)

Section WholeBatch.
Import Fs.
Implicit Types (fs : gmap (list string) node) (p q : list string) (w : world).







End WholeBatch.



(* ===================================================================== *)
(** * Tearing down with promises                                          *)
(* ===================================================================== *)

Section AsyncSweep.
Import Fs.
Implicit Types (fs : gmap (list string) node) (p q : list string) (w : world).





End AsyncSweep.




Example deleteTestFolders_without_plugins_folder_sample :
  let r := Tools.deleteTestFolders sample_tools
             (Tools.createTestFolders sample_tools empty_world).2 in
  r.1 = Throw (Fs.fs_error "ENOENT" "scandir" "/home/u/proj/node_modules")
  ∧ files r.2 !! ["home"; "u"; "proj"; "test"; "data"; "src"] = None
  ∧ files r.2 !! ["home"; "u"; "proj"; "test"; "data"] = Some Dir.
Proof. vm_compute. repeat split; reflexivity. Qed.

(* ===================================================================== *)
(** * Generators run by co: assertions inside a test, clearing models     *)
(* ===================================================================== *)

(** [yield this.mustThrow(c, msg)] inside a test body run by co: the test
    is resumed (with [undefined]) exactly when [c] fails with an [Error]
    whose message is [msg]; when [c] resolves, or fails with anything
    else, an [AssertionError] is thrown into the test at the [yield]; and
    while [c] is pending the test stays suspended. *)
Theorem mustThrow_inside_a_test (c : Co.yieldable) (msg : string)
    (next throw_ : jsval → Co.generator) :
  let test := Co.GYieldGenerator (Tools.mustThrow c msg) next throw_ in
  (∀ name, Tools.awaitAsync c = Rejected (VError name msg) →
           Co.co test = Co.co (next VUndefined))
  ∧ (∀ v, Tools.awaitAsync c = Fulfilled v →
          Co.co test = Co.co (throw_ (VError "AssertionError" "Resolved")))
  ∧ (∀ e, Tools.awaitAsync c = Rejected e → (∀ name, e ≠ VError name msg) →
          ∃ m, Co.co test = Co.co (throw_ (VError "AssertionError" m)))
  ∧ (Tools.awaitAsync c = Pending → Co.co test = Pending).
Proof.
  intros test. subst test. unfold Co.co at 1 3 5 7. cbn [Co.co_calls].
  fold (Co.co (Tools.mustThrow c msg)). rewrite co_mustThrow.
  unfold Must.reject_with_error, Must.assertion_error. repeat split.
  - intros name ->. cbn [Must.is_error_with]. by rewrite String.eqb_refl.
  - by intros v ->.
  - intros e -> He. destruct (Must.is_error_with e msg) eqn:E; [|by eexists].
    destruct e as [| | |name message]; try done. cbn in E.
    apply String.eqb_eq in E as ->. by destruct (He name).
  - by intros ->.
Qed.

Section ClearDb.

Lemma clearDb_loop_app (ms : Tools.models) (pre rest : list string) :
  (∀ x, x ∈ pre → ∃ v, Tools.model ms x = Some (Fulfilled v)) →
  Co.co_calls (Tools.clearDb_loop ms (pre ++ rest))
  = Co.co_calls (Tools.clearDb_loop ms rest).
Proof.
  induction pre as [|x pre IH]; intros H; [done|].
  cbn [app Tools.clearDb_loop].
  destruct (H x ltac:(by left)) as [v ->]. cbn [Co.co_calls].
  apply IH. intros y Hy. apply H. by right.
Qed.

Lemma model_of_key (ms : Tools.models) (k : string) :
  k ∈ ms.*1 → is_Some (Tools.model ms k).
Proof.
  induction ms as [|[k0 q] ms IH]; cbn [fmap list_fmap fst Tools.model].
  - by intros ?%elem_of_nil.
  - intros [->|Hk]%elem_of_cons.
    + rewrite String.eqb_refl. by eexists.
    + destruct (String.eqb k k0); [by eexists | by apply IH].
Qed.

End ClearDb.

(** [clearDb] run by co (first listing of part_000).  The models cleared
    are the names given, arrays of names flattened, in the order given;
    with no name given they are all the models of the application, in the
    order of enumeration.  The queries are awaited one at a time: the
    promise is fulfilled when every query is; it is rejected with the
    error of the first query that fails, the models before it having been
    cleared; a name that is no model makes it fail with a [TypeError] at
    that point, which cannot happen when no name is given; and it stays
    pending while a query does. *)
Theorem clearDb_outcome (ms : Tools.models) (arguments : list (string + list string)) :
  let given := Tools.modelNames arguments in
  let names := if (length given =? 0)%nat then ms.*1 else given in
  let outcome := Co.co (Tools.clearDb ms arguments) in
  (given = [] → names = ms.*1 ∧ ∀ n, n ∈ names → is_Some (Tools.model ms n))
  ∧ (given ≠ [] → names = given)
  ∧ ((∀ n, n ∈ names → ∃ v, Tools.model ms n = Some (Fulfilled v)) →
     outcome = Fulfilled VUndefined)
  ∧ (∀ pre n post,
       names = pre ++ n :: post →
       (∀ x, x ∈ pre → ∃ v, Tools.model ms x = Some (Fulfilled v)) →
       (∀ e, Tools.model ms n = Some (Rejected e) → outcome = Rejected e)
       ∧ (Tools.model ms n = Some Pending → outcome = Pending)
       ∧ (Tools.model ms n = None → ∃ m, outcome = Rejected (VError "TypeError" m))).
Proof.
  intros given names outcome. subst outcome. unfold Tools.clearDb. fold given names.
  split; [|split; [|split]].
  - intros E. subst names. rewrite E. cbn. split; [done|].
    intros n. apply model_of_key.
  - intros E. subst names. by destruct given.
  - intros H. unfold Co.co. rewrite <- (app_nil_r names).
    by rewrite clearDb_loop_app.
  - intros pre n post -> Hpre. unfold Co.co. rewrite clearDb_loop_app by done.
    cbn [Tools.clearDb_loop]. repeat split.
    + by intros e ->.
    + by intros ->.
    + intros ->. by eexists.
Qed.

Example clearDb_samples :
  let ms := [("users", Fulfilled (VNumber 3)); ("posts", Rejected (VError "Error" "down"));
             ("tags", Fulfilled (VNumber 0))] in
  Co.co (Tools.clearDb ms []) = Rejected (VError "Error" "down")
  ∧ Co.co (Tools.clearDb ms [inl "tags"; inr ["users"]]) = Fulfilled VUndefined
  ∧ Co.co (Tools.clearDb ms [inr []; inl "users"; inl "nope"; inl "posts"])
    = Rejected Tools.no_model.
Proof. repeat split; reflexivity. Qed.

(* ===================================================================== *)
(** * Reading back, and roots that cannot be made                         *)
(* ===================================================================== *)



Section BlockedRoot.
Import Fs.
Implicit Types (fs : gmap (list string) node) (p q : list string) (w : world).




End BlockedRoot.


Example createTestFolders_root_is_blocked_sample :
  let w := World "/home/u/proj"
             (list_to_map [(["home"], Dir); (["home"; "u"], Dir); (["home"; "u"; "proj"], Dir);
                           (["home"; "u"; "proj"; "test"], File "not a folder")]) [] in
  let r := Tools.createTestFolders sample_tools w in
  r.1 = Throw (Fs.fs_error "ENOTDIR" "open" "/home/u/proj/test/data/src/README")
  ∧ files r.2 = files w.
Proof. vm_compute. split; reflexivity. Qed.

(* ===================================================================== *)
(** * A test plugin with its modules                                      *)
(* ===================================================================== *)

Section PluginModules.
Import Fs.
Implicit Types (fs : gmap (list string) node) (p q : list string) (w : world).





End PluginModules.


